(** * arjunx: parameter discovery over fetched HTML

    A shallow embedding of the two entry points of the repository
    ([main.go] and its near-duplicate, here [part_000]) together with the
    parts of the Go libraries they call ([strings], [net/url], [net/http],
    [goquery]), and the properties of the specification settled on them.

    Go strings are byte strings: they are modelled by [string], whose
    characters are the 256 byte values.  A [url.Values] is a
    [gmap string (list string)].  Go functions that return [(T, error)]
    return a [Result T]; a nil-pointer dereference is an explicit
    [Panicked] outcome. *)

From Stdlib Require Import Ascii NArith Lia Permutation.
From stdpp Require Import gmap strings list fin_maps.

Set Warnings "-register-all".

Local Open Scope char_scope.
Local Open Scope stdpp_scope.

(** ** Errors and results *)

(** Go [error] values, kept structured: the constructor says which library
    call built the error, the operands are the values formatted into it. *)
Inductive error : Type :=
  | errors_New (text : string)
  | EscapeError (s : string)
  | InvalidHostError (s : string)
  | url_Error (Op URL : string) (Err : error)
  | fmt_Errorf (format : string) (operands : list operand)
with operand : Type :=
  | opString (s : string)
  | opError (e : error).

Inductive Result (A : Type) : Type :=
  | Ok (a : A)
  | Err (e : error).
Arguments Ok {A} a.
Arguments Err {A} e.

Definition isOk {A} (r : Result A) : bool :=
  match r with Ok _ => true | Err _ => false end.

(** A call either returns or panics (the run-time error of a nil
    dereference); a panic in a worker goroutine ends the process. *)
Inductive Outcome (A : Type) : Type :=
  | Returned (a : A)
  | Panicked (reason : string).
Arguments Returned {A} a.
Arguments Panicked {A} reason.

(** ** Bytes *)

Definition inRange (lo hi c : ascii) : bool := Ascii.leb lo c && Ascii.leb c hi.
Definition isLower (c : ascii) : bool := inRange "a" "z" c.
Definition isUpper (c : ascii) : bool := inRange "A" "Z" c.
Definition isDigit (c : ascii) : bool := inRange "0" "9" c.
Definition isAlnum (c : ascii) : bool := isLower c || isUpper c || isDigit c.

(** The bytes of a string, for [for i := 0; i < len(s); i++]. *)
Definition bytes (s : string) : list ascii := String.list_ascii_of_string s.

(** [c] is one of the bytes of [set]. *)
Fixpoint oneOf (set : string) (c : ascii) : bool :=
  match set with
  | EmptyString => false
  | String d rest => Ascii.eqb c d || oneOf rest c
  end.

(** ** Package [strings] *)

Module strings.

Fixpoint HasPrefix (s prefix : string) : bool :=
  match prefix, s with
  | EmptyString, _ => true
  | String p prefix', String c s' => Ascii.eqb c p && HasPrefix s' prefix'
  | String _ _, EmptyString => false
  end.

(** [s[n:]], for [n <= len(s)]. *)
Fixpoint drop (n : nat) (s : string) : string :=
  match n, s with
  | O, _ => s
  | S n', String _ s' => drop n' s'
  | S _, EmptyString => EmptyString
  end.

(** [strings.Cut(s, sep)]: the text before and after the first
    occurrence of [sep], and whether [sep] occurs. *)
Fixpoint Cut (s sep : string) : string * string * bool :=
  if HasPrefix s sep then (EmptyString, drop (String.length sep) s, true)
  else match s with
       | EmptyString => (EmptyString, EmptyString, false)
       | String c s' =>
           let '(before, after, found) := Cut s' sep in
           (String c before, after, found)
       end.

Definition Contains (s substr : string) : bool := snd (Cut s substr).

(** [strings.SplitN(s, sep, n)] for a non-empty [sep] and [n >= 0]:
    at most [n] pieces, the last one being the unsplit remainder. *)
Fixpoint SplitN (s sep : string) (n : nat) : list string :=
  match n with
  | O => []
  | S O => [s]
  | S n' =>
      match Cut s sep with
      | (before, after, true) => before :: SplitN after sep n'
      | (_, _, false) => [s]
      end
  end.

Definition HasSuffix (s suffix : string) : bool :=
  HasPrefix (String.rev s) (String.rev suffix).

(** Number of occurrences of the byte [c]. *)
Fixpoint CountByte (s : string) (c : ascii) : nat :=
  match s with
  | EmptyString => O
  | String d s' => (if Ascii.eqb d c then 1 else 0) + CountByte s' c
  end.

Definition lowerByte (c : ascii) : ascii :=
  if isUpper c then ascii_of_N (N_of_ascii c + 32) else c.

(** [strings.ToLower] on the ASCII letters (the only ones a URL scheme
    can hold). *)
Fixpoint ToLower (s : string) : string :=
  match s with
  | EmptyString => EmptyString
  | String c s' => String (lowerByte c) (ToLower s')
  end.

(** *** [TrimSpace]

    [strings.TrimSpace] removes the leading and the trailing white-space
    runes, as [unicode.IsSpace] defines them.  On the bytes of a string
    these runes are exactly the UTF-8 sequences below: the six ASCII
    ones, U+0085 and U+00A0 (two bytes), U+1680, U+2000..U+200A, U+2028,
    U+2029, U+202F, U+205F and U+3000 (three bytes).  Any other byte
    sequence, well-formed or not, decodes to a rune that is not a
    space. *)

Definition asciiSpace (c : ascii) : bool :=
  oneOf (String "009" (String "010" (String "011" (String "012"
        (String "013" (String " " EmptyString)))))) c.

Definition space2 (c1 c2 : ascii) : bool :=
  Ascii.eqb c1 "194" && (Ascii.eqb c2 "133" || Ascii.eqb c2 "160").

Definition space3 (c1 c2 c3 : ascii) : bool :=
  (Ascii.eqb c1 "225" && Ascii.eqb c2 "154" && Ascii.eqb c3 "128")
  || (Ascii.eqb c1 "226" && Ascii.eqb c2 "128"
      && (inRange "128" "138" c3 || Ascii.eqb c3 "168"
          || Ascii.eqb c3 "169" || Ascii.eqb c3 "175"))
  || (Ascii.eqb c1 "226" && Ascii.eqb c2 "129" && Ascii.eqb c3 "159")
  || (Ascii.eqb c1 "227" && Ascii.eqb c2 "128" && Ascii.eqb c3 "128").

(** The rest of [s] after its first rune, when that rune is a space. *)
Definition leadingSpace (s : string) : option string :=
  match s with
  | EmptyString => None
  | String c1 r1 =>
      if asciiSpace c1 then Some r1
      else match r1 with
           | EmptyString => None
           | String c2 r2 =>
               if space2 c1 c2 then Some r2
               else match r2 with
                    | EmptyString => None
                    | String c3 r3 => if space3 c1 c2 c3 then Some r3 else None
                    end
           end
  end.

(** The same on the reversed string: [r] is [s] read from its end. *)
Definition trailingSpace (r : string) : option string :=
  match r with
  | EmptyString => None
  | String c1 r1 =>
      if asciiSpace c1 then Some r1
      else match r1 with
           | EmptyString => None
           | String c2 r2 =>
               if space2 c2 c1 then Some r2
               else match r2 with
                    | EmptyString => None
                    | String c3 r3 => if space3 c3 c2 c1 then Some r3 else None
                    end
           end
  end.

Fixpoint strip (step : string -> option string) (fuel : nat) (s : string) : string :=
  match fuel with
  | O => s
  | S fuel' =>
      match step s with
      | Some rest => strip step fuel' rest
      | None => s
      end
  end.

Definition TrimLeftSpace (s : string) : string :=
  strip leadingSpace (String.length s) s.

Definition TrimRightSpace (s : string) : string :=
  String.rev (strip trailingSpace (String.length s) (String.rev s)).

Definition TrimSpace (s : string) : string := TrimRightSpace (TrimLeftSpace s).

End strings.

(** ** Package [net/url] (after the Go 1.2x sources) *)

Module url.

(** *** Escaping *)

Inductive encoding : Type :=
  | encodePath | encodePathSegment | encodeHost | encodeZone
  | encodeUserPassword | encodeQueryComponent | encodeFragment.

Definition isHostMode (mode : encoding) : bool :=
  match mode with encodeHost | encodeZone => true | _ => false end.

Definition isQueryMode (mode : encoding) : bool :=
  match mode with encodeQueryComponent => true | _ => false end.

Definition ishex (c : ascii) : bool :=
  isDigit c || inRange "a" "f" c || inRange "A" "F" c.

Definition unhex (c : ascii) : N :=
  if isDigit c then N_of_ascii c - 48
  else if inRange "a" "f" c then N_of_ascii c - 97 + 10
  else if inRange "A" "F" c then N_of_ascii c - 65 + 10
  else 0.

Definition upperhex (n : N) : ascii :=
  if (n <? 10)%N then ascii_of_N (48 + n) else ascii_of_N (55 + n).

Definition shouldEscape (c : ascii) (mode : encoding) : bool :=
  if isAlnum c then false
  else if isHostMode mode && (oneOf "!$&'()*+,;=:[]<>" c || Ascii.eqb c "034") then false
  else if oneOf "-_.~" c then false
  else if oneOf "$&+,/:;=?@" c then
    match mode with
    | encodePath => Ascii.eqb c "?"
    | encodePathSegment => oneOf "/;,?" c
    | encodeUserPassword => oneOf "@/?:" c
    | encodeQueryComponent => true
    | encodeFragment => false
    | encodeHost | encodeZone => true
    end
  else match mode with
       | encodeFragment => negb (oneOf "!()*" c)
       | _ => true
       end.

(** [escape]: a space becomes [+] in a query component, a byte that
    [shouldEscape] becomes [%XX] in upper-case hexadecimal. *)
Fixpoint escape (s : string) (mode : encoding) : string :=
  match s with
  | EmptyString => EmptyString
  | String c s' =>
      if Ascii.eqb c " " && isQueryMode mode then String "+" (escape s' mode)
      else if shouldEscape c mode then
        String "%" (String (upperhex (N_of_ascii c / 16))
                   (String (upperhex (N_of_ascii c mod 16)) (escape s' mode)))
      else String c (escape s' mode)
  end.

Definition take3 (s : string) : string :=
  match s with
  | String a (String b (String c _)) => String a (String b (String c EmptyString))
  | _ => s
  end.

(** First pass of [unescape]: every [%] is followed by two hexadecimal
    digits, with the extra rules of the host and zone modes. *)
Fixpoint unescapeCheck (s : string) (mode : encoding) : option error :=
  match s with
  | EmptyString => None
  | String c r =>
      if Ascii.eqb c "%" then
        match r with
        | String h1 (String h2 r') =>
            if negb (ishex h1 && ishex h2) then Some (EscapeError (take3 s))
            else
              let is25 := Ascii.eqb h1 "2" && Ascii.eqb h2 "5" in
              let v := ascii_of_N (unhex h1 * 16 + unhex h2) in
              match mode with
              | encodeHost =>
                  if (unhex h1 <? 8)%N && negb is25
                  then Some (EscapeError (take3 s))
                  else unescapeCheck r' mode
              | encodeZone =>
                  if negb is25 && negb (Ascii.eqb v " ") && shouldEscape v encodeHost
                  then Some (EscapeError (take3 s))
                  else unescapeCheck r' mode
              | _ => unescapeCheck r' mode
              end
        | _ => Some (EscapeError (take3 s))
        end
      else if Ascii.eqb c "+" then unescapeCheck r mode
      else if isHostMode mode && Ascii.ltb c "128" && shouldEscape c encodeHost
      then Some (InvalidHostError (String c EmptyString))
      else unescapeCheck r mode
  end.

(** Second pass of [unescape], on a string that passed the first. *)
Fixpoint unescapeBytes (s : string) (mode : encoding) : string :=
  match s with
  | EmptyString => EmptyString
  | String c r =>
      if Ascii.eqb c "%" then
        match r with
        | String h1 (String h2 r') =>
            String (ascii_of_N (unhex h1 * 16 + unhex h2)) (unescapeBytes r' mode)
        | _ => String c (unescapeBytes r mode)
        end
      else if Ascii.eqb c "+" && isQueryMode mode then String " " (unescapeBytes r mode)
      else String c (unescapeBytes r mode)
  end.

Definition unescape (s : string) (mode : encoding) : Result string :=
  match unescapeCheck s mode with
  | Some e => Err e
  | None => Ok (unescapeBytes s mode)
  end.

Definition QueryEscape (s : string) : string := escape s encodeQueryComponent.
Definition QueryUnescape (s : string) : Result string := unescape s encodeQueryComponent.

(** *** [Values] *)

Abbreviation Values := (gmap string (list string)).

(** [v[key]]: a missing key reads as the nil slice. *)
Definition get (v : Values) (key : string) : list string := v !!! key.

Definition Add (key value : string) (v : Values) : Values :=
  <[key := get v key ++ [value]]> v.

Fixpoint insertSorted (k : string) (l : list string) : list string :=
  match l with
  | [] => [k]
  | x :: l' => if String.leb k x then k :: l else x :: insertSorted k l'
  end.

(** [slices.Sort] on strings: ascending byte-wise order. *)
Definition sortStrings (l : list string) : list string :=
  foldr insertSorted [] l.

Definition keys (v : Values) : list string := (map_to_list v).*1.

Definition writePair (keyEscaped : string) (buf value : string) : string :=
  (if String.eqb buf EmptyString then buf else buf +:+ "&")
    +:+ keyEscaped +:+ "=" +:+ QueryEscape value.

(** [Values.Encode]: the pairs [key=value], keys sorted, joined by [&]. *)
Definition Encode (v : Values) : string :=
  foldl (fun buf k => foldl (writePair (QueryEscape k)) buf (get v k))
        EmptyString (sortStrings (keys v)).

(** One turn of the loop of [parseQuery] on the segment [key]. *)
Definition parseSegment (m : Values) (err : option error) (key : string)
  : Values * option error :=
  if strings.Contains key ";"
  then (m, Some (fmt_Errorf "invalid semicolon separator in query" []))
  else if String.eqb key EmptyString then (m, err)
  else
    let '(key, value, _) := strings.Cut key "=" in
    match QueryUnescape key with
    | Err err1 => (m, match err with None => Some err1 | _ => err end)
    | Ok key =>
        match QueryUnescape value with
        | Err err1 => (m, match err with None => Some err1 | _ => err end)
        | Ok value => (Add key value m, err)
        end
    end.

(** The loop [key, query, _ = strings.Cut(query, "&")] while [query] is not empty;
    every turn shortens [query], so [len(query)] turns are enough. *)
Fixpoint parseQuery (fuel : nat) (m : Values) (err : option error) (query : string)
  : Values * option error :=
  match fuel with
  | O => (m, err)
  | S fuel' =>
      if String.eqb query EmptyString then (m, err)
      else
        let '(key, query', _) := strings.Cut query "&" in
        let '(m', err') := parseSegment m err key in
        parseQuery fuel' m' err' query'
  end.

Definition ParseQuery (query : string) : Values * option error :=
  parseQuery (String.length query) ∅ None query.

(** *** [URL] *)

Record Userinfo : Type := mkUserinfo {
  username : string;
  password : string;
  passwordSet : bool
}.

Record URL : Type := mkURL {
  Scheme : string;
  Opaque : string;
  User : option Userinfo;
  Host : string;
  Path : string;
  RawPath : string;
  OmitHost : bool;
  ForceQuery : bool;
  RawQuery : string;
  Fragment : string;
  RawFragment : string
}.

Definition isEmpty (s : string) : bool := String.eqb s EmptyString.

Definition stringContainsCTLByte (s : string) : bool :=
  existsb (fun c => Ascii.ltb c " " || Ascii.eqb c "127") (bytes s).

Definition consScheme (c : ascii) (r : Result (option (string * string)))
  : Result (option (string * string)) :=
  match r with
  | Ok (Some (scheme, rest)) => Ok (Some (String c scheme, rest))
  | _ => r
  end.

(** The loop of [getScheme]; [first] says that the byte is [rawURL[0]].
    [Ok None] is the answer "no scheme". *)
Fixpoint schemeScan (first : bool) (s : string) : Result (option (string * string)) :=
  match s with
  | EmptyString => Ok None
  | String c r =>
      if isLower c || isUpper c then consScheme c (schemeScan false r)
      else if isDigit c || oneOf "+-." c then
        if first then Ok None else consScheme c (schemeScan false r)
      else if Ascii.eqb c ":" then
        if first then Err (errors_New "missing protocol scheme")
        else Ok (Some (EmptyString, r))
      else Ok None
  end.

Definition getScheme (rawURL : string) : Result (string * string) :=
  match schemeScan true rawURL with
  | Err e => Err e
  | Ok None => Ok (EmptyString, rawURL)
  | Ok (Some (scheme, path)) => Ok (scheme, path)
  end.

Definition validOptionalPort (port : string) : bool :=
  match port with
  | EmptyString => true
  | String c digits => Ascii.eqb c ":" && forallb isDigit (bytes digits)
  end.

(** [s[:i]] and [s[i+1:]] for [i] the last index of the byte [c]. *)
Definition CutLast (s : string) (c : ascii) : option (string * string) :=
  match strings.Cut (String.rev s) (String c EmptyString) with
  | (after, before, true) => Some (String.rev before, String.rev after)
  | _ => None
  end.

Definition parseHost (host : string) : Result string :=
  let plain := unescape host encodeHost in
  if strings.HasPrefix host "[" then
    match CutLast host "]" with
    | None => Err (errors_New "missing ']' in host")
    | Some (inside, colonPort) =>
        if negb (validOptionalPort colonPort)
        then Err (fmt_Errorf "invalid port %q after host" [opString colonPort])
        else
          match strings.Cut inside "%25" with
          | (host1, zone, true) =>
              match unescape host1 encodeHost with
              | Err e => Err e
              | Ok host1 =>
                  match unescape ("%25" +:+ zone) encodeZone with
                  | Err e => Err e
                  | Ok host2 =>
                      match unescape ("]" +:+ colonPort) encodeHost with
                      | Err e => Err e
                      | Ok host3 => Ok (host1 +:+ host2 +:+ host3)
                      end
                  end
              end
          | _ => plain
          end
    end
  else
    match CutLast host ":" with
    | Some (_, port) =>
        if negb (validOptionalPort (String ":" port))
        then Err (fmt_Errorf "invalid port %q after host" [opString (String ":" port)])
        else plain
    | None => plain
    end.

Definition validUserinfo (s : string) : bool :=
  forallb (fun r => isAlnum r || oneOf "-._:~!$&'()*+,;=%@" r) (bytes s).

Definition parseAuthority (authority : string) : Result (option Userinfo * string) :=
  match CutLast authority "@" with
  | None =>
      match parseHost authority with
      | Err e => Err e
      | Ok host => Ok (None, host)
      end
  | Some (userinfo, hostport) =>
      match parseHost hostport with
      | Err e => Err e
      | Ok host =>
          if negb (validUserinfo userinfo)
          then Err (errors_New "net/url: invalid userinfo")
          else if negb (strings.Contains userinfo ":") then
            match unescape userinfo encodeUserPassword with
            | Err e => Err e
            | Ok name => Ok (Some (mkUserinfo name EmptyString false), host)
            end
          else
            let '(name, pass, _) := strings.Cut userinfo ":" in
            match unescape name encodeUserPassword with
            | Err e => Err e
            | Ok name =>
                match unescape pass encodeUserPassword with
                | Err e => Err e
                | Ok pass => Ok (Some (mkUserinfo name pass true), host)
                end
            end
      end
  end.

(** [setPath]: the pair of [Path] and [RawPath]; [RawPath] is kept only
    when the default escaping of [Path] differs from the text given. *)
Definition setPath (p : string) : Result (string * string) :=
  match unescape p encodePath with
  | Err e => Err e
  | Ok path =>
      if String.eqb p (escape path encodePath) then Ok (path, EmptyString)
      else Ok (path, p)
  end.

Definition setFragment (f : string) : Result (string * string) :=
  match unescape f encodeFragment with
  | Err e => Err e
  | Ok frag =>
      if String.eqb f (escape frag encodeFragment) then Ok (frag, EmptyString)
      else Ok (frag, f)
  end.

Definition dropLast (s : string) : string := String.rev (strings.drop 1 (String.rev s)).

(** [parse(rawURL, viaRequest)] at [viaRequest = false], the only way
    [Parse] calls it. *)
Definition parse (rawURL : string) : Result URL :=
  if stringContainsCTLByte rawURL
  then Err (errors_New "net/url: invalid control character in URL")
  else if String.eqb rawURL "*"
  then Ok (mkURL EmptyString EmptyString None EmptyString "*" EmptyString false false EmptyString EmptyString EmptyString)
  else
    match getScheme rawURL with
    | Err e => Err e
    | Ok (scheme, rest) =>
        let scheme := strings.ToLower scheme in
        let '(rest, rawQuery, forceQuery) :=
          if strings.HasSuffix rest "?" && Nat.eqb (strings.CountByte rest "?") 1
          then (dropLast rest, EmptyString, true)
          else let '(r, q, _) := strings.Cut rest "?" in (r, q, false) in
        if negb (strings.HasPrefix rest "/") && negb (isEmpty scheme)
        then Ok (mkURL scheme rest None EmptyString EmptyString EmptyString false forceQuery rawQuery EmptyString EmptyString)
        else if negb (strings.HasPrefix rest "/")
                && strings.Contains (strings.Cut rest "/").1.1 ":"
        then Err (errors_New "first path segment in URL cannot contain colon")
        else
          let located : Result (option Userinfo * string * bool * string) :=
            if (negb (isEmpty scheme) || negb (strings.HasPrefix rest "///"))
               && strings.HasPrefix rest "//"
            then
              let authority := strings.drop 2 rest in
              let '(authority, rest) :=
                match strings.Cut authority "/" with
                | (a, b, true) => (a, String "/" b)
                | _ => (authority, EmptyString)
                end in
              match parseAuthority authority with
              | Err e => Err e
              | Ok (user, host) => Ok (user, host, false, rest)
              end
            else Ok (None, EmptyString,
                     negb (isEmpty scheme) && strings.HasPrefix rest "/", rest) in
          match located with
          | Err e => Err e
          | Ok (user, host, omitHost, rest) =>
              match setPath rest with
              | Err e => Err e
              | Ok (path, rawPath) =>
                  Ok (mkURL scheme EmptyString user host path rawPath omitHost
                            forceQuery rawQuery EmptyString EmptyString)
              end
          end
    end.

Definition withFragment (u : URL) (frag rawFrag : string) : URL :=
  mkURL (Scheme u) (Opaque u) (User u) (Host u) (Path u) (RawPath u)
        (OmitHost u) (ForceQuery u) (RawQuery u) frag rawFrag.

(** [u.RawQuery = q]: the assignment to one field of the struct. *)
Definition withRawQuery (u : URL) (q : string) : URL :=
  mkURL (Scheme u) (Opaque u) (User u) (Host u) (Path u) (RawPath u)
        (OmitHost u) (ForceQuery u) q (Fragment u) (RawFragment u).

Definition withHost (u : URL) (h : string) : URL :=
  mkURL (Scheme u) (Opaque u) (User u) h (Path u) (RawPath u)
        (OmitHost u) (ForceQuery u) (RawQuery u) (Fragment u) (RawFragment u).

(** [url.Parse]: [Err] stands for the pair [(nil, err)]. *)
Definition Parse (rawURL : string) : Result URL :=
  let '(u, frag, _) := strings.Cut rawURL "#" in
  match parse u with
  | Err e => Err (url_Error "parse" u e)
  | Ok url =>
      if isEmpty frag then Ok url
      else match setFragment frag with
           | Err e => Err (url_Error "parse" rawURL e)
           | Ok (f, rawf) => Ok (withFragment url f rawf)
           end
  end.

Definition Query (u : URL) : Values := (ParseQuery (RawQuery u)).1.

(** *** [URL.String] *)

Definition validEncoded (s : string) (mode : encoding) : bool :=
  forallb (fun c => oneOf "!$&'()*+,;=:@[]%" c || negb (shouldEscape c mode))
          (bytes s).

Definition EscapedPath (u : URL) : string :=
  if negb (isEmpty (RawPath u)) && validEncoded (RawPath u) encodePath
     && match unescape (RawPath u) encodePath with
        | Ok p => String.eqb p (Path u)
        | Err _ => false
        end
  then RawPath u
  else if String.eqb (Path u) "*" then "*"
  else escape (Path u) encodePath.

Definition EscapedFragment (u : URL) : string :=
  if negb (isEmpty (RawFragment u)) && validEncoded (RawFragment u) encodeFragment
     && match unescape (RawFragment u) encodeFragment with
        | Ok f => String.eqb f (Fragment u)
        | Err _ => false
        end
  then RawFragment u
  else escape (Fragment u) encodeFragment.

Definition Userinfo_String (ui : Userinfo) : string :=
  escape (username ui) encodeUserPassword
  +:+ (if passwordSet ui then ":" +:+ escape (password ui) encodeUserPassword
       else EmptyString).

Definition hasUser (u : URL) : bool :=
  match User u with Some _ => true | None => false end.

(** Everything [URL.String] writes before the query. *)
Definition beforeQuery (u : URL) : string :=
  let buf := if negb (isEmpty (Scheme u)) then Scheme u +:+ ":" else EmptyString in
  if negb (isEmpty (Opaque u)) then buf +:+ Opaque u
  else
    let buf :=
      if negb (isEmpty (Scheme u)) || negb (isEmpty (Host u)) || hasUser u then
        if OmitHost u && isEmpty (Host u) && negb (hasUser u) then buf
        else
          let buf :=
            if negb (isEmpty (Host u)) || negb (isEmpty (Path u)) || hasUser u
            then buf +:+ "//" else buf in
          let buf :=
            match User u with
            | Some ui => buf +:+ Userinfo_String ui +:+ "@"
            | None => buf
            end in
          if negb (isEmpty (Host u)) then buf +:+ escape (Host u) encodeHost else buf
      else buf in
    let path := EscapedPath u in
    let buf :=
      if negb (isEmpty path) && negb (strings.HasPrefix path "/")
         && negb (isEmpty (Host u))
      then buf +:+ "/" else buf in
    let buf :=
      if isEmpty buf && strings.Contains (strings.Cut path "/").1.1 ":"
      then buf +:+ "./" else buf in
    buf +:+ path.

Definition queryPart (u : URL) : string :=
  if ForceQuery u || negb (isEmpty (RawQuery u)) then "?" +:+ RawQuery u
  else EmptyString.

Definition fragmentPart (u : URL) : string :=
  if negb (isEmpty (Fragment u)) then "#" +:+ EscapedFragment u else EmptyString.

Definition URL_String (u : URL) : string :=
  beforeQuery u +:+ queryPart u +:+ fragmentPart u.

End url.

(** ** Package [net/http] *)

Module http.

Abbreviation Header := (gmap string (list string)).

(** [httpguts.IsTokenRune], also [validHeaderFieldByte]. *)
Definition isToken (c : ascii) : bool := isAlnum c || oneOf "!#$%&'*+-.^_`|~" c.

Definition validMethod (method : string) : bool :=
  negb (url.isEmpty method) && forallb isToken (bytes method).

Fixpoint canonical (upper : bool) (s : string) : string :=
  match s with
  | EmptyString => EmptyString
  | String c r =>
      let c' := if upper && isLower c then ascii_of_N (N_of_ascii c - 32)
                else if negb upper && isUpper c then ascii_of_N (N_of_ascii c + 32)
                else c in
      String c' (canonical (Ascii.eqb c' "-") r)
  end.

(** [textproto.CanonicalMIMEHeaderKey]: a key with a byte that is not a
    token byte is left as it is. *)
Definition CanonicalMIMEHeaderKey (s : string) : string :=
  if forallb isToken (bytes s) then canonical true s else s.

Definition Header_Add (key value : string) (h : Header) : Header :=
  let key := CanonicalMIMEHeaderKey key in
  <[key := (h !!! key) ++ [value]]> h.

Record Request : Type := mkRequest {
  Method : string;
  URL : url.URL;
  Header_ : Header;
  Host : string
}.

Definition withHeader (req : Request) (h : Header) : Request :=
  mkRequest (Method req) (URL req) h (Host req).

(** [removeEmptyPort]: ["host:"] becomes ["host"]. *)
Definition removeEmptyPort (host : string) : string :=
  match url.CutLast host ":" with
  | Some (before, EmptyString) => before
  | _ => host
  end.

(** [http.NewRequest(method, url, nil)]. *)
Definition NewRequest (method urlStr : string) : Result Request :=
  let method := if url.isEmpty method then "GET" else method in
  if negb (validMethod method)
  then Err (fmt_Errorf "net/http: invalid method %q" [opString method])
  else match url.Parse urlStr with
       | Err e => Err e
       | Ok u =>
           let u := url.withHost u (removeEmptyPort (url.Host u)) in
           Ok (mkRequest method u ∅ (url.Host u))
       end.

Record Client : Type := mkClient {
  Timeout : N;
  (** [Transport.Proxy], when a proxy is configured *)
  Proxy : option url.URL;
  (** [CheckRedirect] returns [ErrUseLastResponse] *)
  UseLastResponse : bool
}.

(** What the program reads of a response: [io.Copy] of its body gives
    the whole text or a read error. *)
Record Response : Type := mkResponse {
  Body : Result string
}.

End http.

(** ** Packages [html] and [goquery] *)

Module html.

Inductive NodeType : Type :=
  | ErrorNode | TextNode | DocumentNode | ElementNode | CommentNode | DoctypeNode.

Record Attribute : Type := mkAttribute {
  Namespace : string;
  Key : string;
  Val : string
}.

(** A node with its children in order ([FirstChild], [NextSibling]). *)
Inductive Node : Type :=
  | mkNode (Type_ : NodeType) (Data : string) (Attr : list Attribute)
           (Children : list Node).

Definition Type_ (n : Node) : NodeType := let 'mkNode t _ _ _ := n in t.
Definition Data (n : Node) : string := let 'mkNode _ d _ _ := n in d.
Definition Attr (n : Node) : list Attribute := let 'mkNode _ _ a _ := n in a.
Definition Children (n : Node) : list Node := let 'mkNode _ _ _ c := n in c.

Definition isElement (n : Node) : bool :=
  match Type_ n with ElementNode => true | _ => false end.

End html.

Module goquery.

(** The selectors of the program are groups of tag names, ["a, form"]:
    the tags between the commas, white space trimmed. *)
Fixpoint splitComma (fuel : nat) (s : string) : list string :=
  match fuel with
  | O => [strings.TrimSpace s]
  | S fuel' =>
      match strings.Cut s "," with
      | (before, after, true) => strings.TrimSpace before :: splitComma fuel' after
      | _ => [strings.TrimSpace s]
      end
  end.

Definition compile (selector : string) : list string :=
  splitComma (String.length selector) selector.

(** A type selector matches an element node by its tag name. *)
Definition matches (tags : list string) (n : html.Node) : bool :=
  html.isElement n && existsb (String.eqb (html.Data n)) tags.

(** [Selector.MatchAll]: the matching nodes of a subtree, in document
    order. *)
Fixpoint MatchAll (tags : list string) (n : html.Node) : list html.Node :=
  match n with
  | html.mkNode _ _ _ children =>
      (if matches tags n then [n] else [])
      ++ (fix each (l : list html.Node) : list html.Node :=
            match l with
            | [] => []
            | c :: l' => MatchAll tags c ++ each l'
            end) children
  end.

(** [doc.Find(selector)]: the matches below the element children of the
    root. *)
Definition Find (doc : html.Node) (selector : string) : list html.Node :=
  flat_map (fun c => if html.isElement c then MatchAll (compile selector) c else [])
           (html.Children doc).

(** [s.Attr(name)] on a selection of one node: the value of the first
    attribute of that key; [None] is [exists = false]. *)
Definition Attr (s : html.Node) (attrName : string) : option string :=
  html.Val <$> List.find (fun a => String.eqb (html.Key a) attrName) (html.Attr s).

Definition AttrOr (s : html.Node) (attrName defaultValue : string) : string :=
  match Attr s attrName with
  | Some val => val
  | None => defaultValue
  end.

End goquery.

(** ** The world of one run *)

(** The output file: the strings written so far, and the error every
    write returns when the file cannot be written. *)
Record File : Type := mkFile {
  written : list string;
  failure : option error
}.

Definition WriteString (f : File) (s : string) : File * option error :=
  match failure f with
  | Some e => (f, Some e)
  | None => (mkFile (written f ++ [s]) None, None)
  end.

(** What a call of the program leaves behind: the requests handed to
    [client.Do], the output file, the lines of the error log and the
    lines printed on standard output. *)
Record World : Type := mkWorld {
  sent : list http.Request;
  file : File;
  errorLog : list (string * list operand);
  stdout : list (string * list operand)
}.

Definition send (req : http.Request) (w : World) : World :=
  mkWorld (sent w ++ [req]) (file w) (errorLog w) (stdout w).
Definition setFile (f : File) (w : World) : World :=
  mkWorld (sent w) f (errorLog w) (stdout w).
Definition logError (format : string) (args : list operand) (w : World) : World :=
  mkWorld (sent w) (file w) (errorLog w ++ [(format, args)]) (stdout w).
Definition print (format : string) (args : list operand) (w : World) : World :=
  mkWorld (sent w) (file w) (errorLog w) (stdout w ++ [(format, args)]).

(** The parameters of [processURL] and of [extractParamsFromURL], which
    [main] fills from the command-line flags. *)
Record Config : Type := mkConfig {
  customHeaders : list string;
  proxy : string;
  timeout : N;
  quiet : bool;
  verbose : bool;
  followRedirects : bool;
  method : string;
  baseURL : string
}.

(** [strings.Join(values, ", ")]. *)
Fixpoint Join (elems : list string) (sep : string) : string :=
  match elems with
  | [] => EmptyString
  | [x] => x
  | x :: rest => x +:+ sep +:+ Join rest sep
  end.

(** [for key, values := range queryParameters { fmt.Printf(...) }]; Go
    leaves the order of the keys open, the model takes [map_to_list]'s. *)
Definition printParameters (queryParameters : url.Values) (w : World) : World :=
  foldl (fun w kv => print "%s: %s\n" [opString kv.1; opString (Join kv.2 ", ")] w)
        w (map_to_list queryParameters).

(** The loop over the custom headers, the same in both files: the first
    header without a colon stops it. *)
Fixpoint addCustomHeaders (customHeaders : list string) (h : http.Header)
  : http.Header + string :=
  match customHeaders with
  | [] => inl h
  | header :: rest =>
      match strings.SplitN header ":" 2 with
      | [key; value] =>
          addCustomHeaders rest
            (http.Header_Add (strings.TrimSpace key) (strings.TrimSpace value) h)
      | _ => inr header
      end
  end.

(** ** The worker pool of [main]

    [main] makes the channel [urls] with a buffer of [concurrency]
    places, starts [concurrency] goroutines that each run
    [for u := range urls { ... }], sends every line of the input on the
    channel, closes it and waits for the goroutines.  A state of the pool
    holds the lines not yet sent, the buffer of the channel, the state of
    every goroutine and the world; an action is one step of [main] or of
    one goroutine.  The body of the loop runs as one step: all it shares
    with the other goroutines is the output file and the logs, which it
    only appends to, the file with a single [WriteString].  A panic in a
    goroutine ends the process. *)

Inductive Worker : Type :=
  | Idle
  | Holding (u : string)
  | Finished.

Record Pool : Type := mkPool {
  input : list string;
  urls : list string;
  capacity : nat;
  closed : bool;
  workers : list Worker;
  world : World;
  crashed : option string
}.

Inductive Action : Type :=
  | Send
  | Close
  | Receive (i : nat)
  | Work (i : nat)
  | Leave (i : nat).

(** The effect of an action, when the state allows it.  [work] is the
    body of the loop of a goroutine. *)
Definition fire (work : string → World → Outcome World) (a : Action) (p : Pool)
  : option Pool :=
  match crashed p with
  | Some _ => None
  | None =>
      match a with
      | Send =>
          match input p with
          | u :: rest =>
              if Nat.ltb (length (urls p)) (capacity p)
              then Some (mkPool rest (urls p ++ [u]) (capacity p) (closed p)
                                (workers p) (world p) None)
              else None
          | [] => None
          end
      | Close =>
          match input p with
          | [] =>
              if closed p then None
              else Some (mkPool [] (urls p) (capacity p) true (workers p) (world p) None)
          | _ :: _ => None
          end
      | Receive i =>
          match workers p !! i, urls p with
          | Some Idle, u :: rest =>
              Some (mkPool (input p) rest (capacity p) (closed p)
                           (<[i := Holding u]> (workers p)) (world p) None)
          | _, _ => None
          end
      | Work i =>
          match workers p !! i with
          | Some (Holding u) =>
              match work u (world p) with
              | Returned w =>
                  Some (mkPool (input p) (urls p) (capacity p) (closed p)
                               (<[i := Idle]> (workers p)) w None)
              | Panicked reason =>
                  Some (mkPool (input p) (urls p) (capacity p) (closed p)
                               (workers p) (world p) (Some reason))
              end
          | _ => None
          end
      | Leave i =>
          match workers p !! i, urls p with
          | Some Idle, [] =>
              if closed p
              then Some (mkPool (input p) [] (capacity p) true
                                (<[i := Finished]> (workers p)) (world p) None)
              else None
          | _, _ => None
          end
      end
  end.

(** A schedule: the actions in the order they happen. *)
Fixpoint run (work : string → World → Outcome World) (schedule : list Action) (p : Pool)
  : option Pool :=
  match schedule with
  | [] => Some p
  | a :: rest =>
      match fire work a p with
      | Some p' => run work rest p'
      | None => None
      end
  end.

(** The pool [main] starts with. *)
Definition start (concurrency : nat) (lines : list string) (w : World) : Pool :=
  mkPool lines [] concurrency false (replicate concurrency Idle) w None.

(** The flags a run is started with: [-c] and the ones [main] hands to
    every call. *)
Record Flags : Type := mkFlags {
  concurrencyFlag : nat;
  settings : Config
}.

(** ** [main.go] *)

Module main_go.

Section Run.

(** [goquery.NewDocumentFromReader(strings.NewReader(body))] and
    [client.Do(req)] are the two calls that leave the program: the HTML
    parser and the network, fixed for a run. *)
Variable NewDocumentFromReader : string -> Result html.Node.
Variable Do : http.Client -> http.Request -> Result http.Response.

(** [log.Printf] here and in [extractQueryParamsFromHTML] writes a line
    on the standard logger and changes nothing else; the embedding
    leaves it out. *)
Definition parseURLAndAddQueryParameters (rawurl : string) (params : url.Values)
  : url.Values :=
  match url.Parse rawurl with
  | Err _ => params
  | Ok parsedURL =>
      map_fold (fun key values params =>
                  foldl (fun params value => url.Add key value params) params values)
               params (url.Query parsedURL)
  end.

(** The function given to [Each], on one selected element. *)
Definition visit (queryParameters : url.Values) (s : html.Node) : url.Values :=
  let queryParameters :=
    match goquery.Attr s "name" with
    | Some name => url.Add name (goquery.AttrOr s "value" "FUZZ") queryParameters
    | None => queryParameters
    end in
  let queryParameters :=
    match goquery.Attr s "href" with
    | Some href => parseURLAndAddQueryParameters href queryParameters
    | None => queryParameters
    end in
  match goquery.Attr s "action" with
  | Some action => parseURLAndAddQueryParameters action queryParameters
  | None => queryParameters
  end.

Definition extractQueryParamsFromHTML (responseBody : string) : url.Values :=
  match NewDocumentFromReader responseBody with
  | Err _ => ∅
  | Ok doc => foldl visit ∅ (goquery.Find doc "a, form, input, select, textarea")
  end.

(** [parsedURL.RawQuery = queryParameters.Encode()]. *)
Definition rewrite (parsedURL : url.URL) (queryParameters : url.Values) : url.URL :=
  url.withRawQuery parsedURL (url.Encode queryParameters).

Definition newline : string := String "010" EmptyString.

(** The first part of [processURL], up to the loop over the custom
    headers: the client and the request, or the error returned before
    anything is sent. *)
Definition prepare (cfg : Config) (urlStr : string) : Result (http.Client * http.Request) :=
  match (if url.isEmpty (proxy cfg) then Ok None
         else match url.Parse (proxy cfg) with
              | Err e => Err e
              | Ok proxyURL => Ok (Some proxyURL)
              end) with
  | Err e => Err (fmt_Errorf "error parsing proxy URL: %v" [opError e])
  | Ok transport =>
      let client := http.mkClient (timeout cfg) transport (negb (followRedirects cfg)) in
      let finalURL := if url.isEmpty (baseURL cfg) then urlStr
                      else baseURL cfg +:+ urlStr in
      match http.NewRequest (method cfg) finalURL with
      | Err e => Err (fmt_Errorf "error creating request: %v" [opError e])
      | Ok req =>
          match addCustomHeaders (customHeaders cfg) (http.Header_ req) with
          | inr header => Err (fmt_Errorf "invalid header format: %s" [opString header])
          | inl h => Ok (client, http.withHeader req h)
          end
      end
  end.

Definition processURL (cfg : Config) (urlStr : string) (w : World)
  : World * option error :=
  match prepare cfg urlStr with
  | Err e => (w, Some e)
  | Ok (client, req) =>
      let w := send req w in
      match Do client req with
      | Err e =>
          (w, Some (fmt_Errorf "error making request to %s: %v"
                               [opString urlStr; opError e]))
      | Ok resp =>
          match http.Body resp with
          | Err e =>
              let w := if quiet cfg then w
                       else logError "Error reading response body from URL %s: %v\n"
                                     [opString urlStr; opError e] w in
              (w, Some e)
          | Ok body =>
              let queryParameters := extractQueryParamsFromHTML body in
              if negb (Nat.ltb 0 (size queryParameters)) then (w, None)
              else
                match url.Parse urlStr with
                | Err e =>
                    (w, Some (fmt_Errorf "error parsing URL %s: %v"
                                         [opString urlStr; opError e]))
                | Ok parsedURL =>
                    let modifiedURL :=
                      url.URL_String (rewrite parsedURL queryParameters) in
                    match WriteString (file w) (modifiedURL +:+ newline) with
                    | (f, Some e) =>
                        let w := setFile f w in
                        let w := if quiet cfg then w
                                 else logError "Error writing to file: %v\n"
                                               [opError e] w in
                        (w, Some e)
                    | (f, None) =>
                        let w := setFile f w in
                        let w :=
                          if verbose cfg then
                            printParameters queryParameters
                              (print "Extracted parameters from URL %s:\n"
                                     [opString urlStr] w)
                          else w in
                        (w, None)
                    end
                end
          end
      end
  end.

(** The body of the loop of a goroutine: [processURL], and the error
    on the error log unless [-q] is set. *)
Definition worker (cfg : Config) (u : string) (w : World) : Outcome World :=
  match processURL cfg u w with
  | (w, Some err) => Returned (if quiet cfg then w else logError "%v\n" [opError err] w)
  | (w, None) => Returned w
  end.

(** [main] after [flag.Parse()]: [concurrencyFlag] goroutines. *)
Definition main (flags : Flags) (lines : list string) (w : World) : Pool :=
  start (concurrencyFlag flags) lines w.

End Run.

End main_go.

(** ** The second entry point ([part_000]) *)

Module part_000.

Section Run.

Variable NewDocumentFromReader : string -> Result html.Node.
Variable Do : http.Client -> http.Request -> Result http.Response.

Definition mergeQueryParameters (params1 params2 : url.Values) : url.Values :=
  map_fold (fun key values params1 => <[key := url.get params1 key ++ values]> params1)
           params1 params2.

(** [value = strings.TrimSpace(value)], then ["FUZZ"] for what is left
    empty: the text of the element callback and of the closing loop. *)
Definition fuzzIfBlank (value : string) : string :=
  let value := strings.TrimSpace value in
  if url.isEmpty value || url.isEmpty (strings.TrimSpace value) then "FUZZ" else value.

Definition nilDereference : string :=
  "runtime error: invalid memory address or nil pointer dereference".

(** [parsedURL, _ := url.Parse(raw)] followed by [parsedURL.Query()]: the
    error is dropped, and [Query] on the nil URL of a failed parse panics. *)
Definition mergeQueryOf (raw : string) (queryParameters : url.Values)
  : Outcome url.Values :=
  match url.Parse raw with
  | Err _ => Panicked nilDereference
  | Ok parsedURL => Returned (mergeQueryParameters queryParameters (url.Query parsedURL))
  end.

(** The function given to [Each], on one selected element. *)
Definition visit (queryParameters : url.Values) (element : html.Node)
  : Outcome url.Values :=
  let name := goquery.AttrOr element "name" EmptyString in
  let value := goquery.AttrOr element "value" EmptyString in
  let href := goquery.AttrOr element "href" EmptyString in
  let src := goquery.AttrOr element "src" EmptyString in
  let queryParameters :=
    if negb (url.isEmpty name)
    then <[name := url.get queryParameters name ++ [fuzzIfBlank value]]> queryParameters
    else queryParameters in
  match (if negb (url.isEmpty href) then mergeQueryOf href queryParameters
         else Returned queryParameters) with
  | Panicked r => Panicked r
  | Returned queryParameters =>
      if negb (url.isEmpty src) then mergeQueryOf src queryParameters
      else Returned queryParameters
  end.

(** [Selection.Each]: the callback on every node in order; a panic ends
    the walk. *)
Fixpoint Each (nodes : list html.Node) (queryParameters : url.Values)
  : Outcome url.Values :=
  match nodes with
  | [] => Returned queryParameters
  | element :: rest =>
      match visit queryParameters element with
      | Panicked r => Panicked r
      | Returned queryParameters => Each rest queryParameters
      end
  end.

Definition extractQueryParamsFromHTML (responseBody : string) : Outcome url.Values :=
  match NewDocumentFromReader responseBody with
  | Err _ => Returned ∅
  | Ok doc =>
      match Each (goquery.Find doc "input, select, textarea, a") ∅ with
      | Panicked r => Panicked r
      | Returned queryParameters =>
          Returned (fmap (M := gmap string) (fmap (M := list) fuzzIfBlank) queryParameters)
      end
  end.

(** The part of [createRequestWithCustomHeaders] before [client.Do]. *)
Definition prepare (cfg : Config) (u : string) : Result (http.Client * http.Request) :=
  match (if url.isEmpty (proxy cfg) then Ok None
         else match url.Parse (proxy cfg) with
              | Err e => Err e
              | Ok proxyURL => Ok (Some proxyURL)
              end) with
  | Err e => Err e
  | Ok transport =>
      let finalURL := if url.isEmpty (baseURL cfg) then u else baseURL cfg +:+ u in
      match http.NewRequest (method cfg) finalURL with
      | Err e => Err e
      | Ok req =>
          let client := http.mkClient (timeout cfg) transport (negb (followRedirects cfg)) in
          match addCustomHeaders (customHeaders cfg) (http.Header_ req) with
          | inr header => Err (fmt_Errorf "Invalid header format: %s" [opString header])
          | inl h => Ok (client, http.withHeader req h)
          end
      end
  end.

Definition createRequestWithCustomHeaders (cfg : Config) (u : string) (w : World)
  : World * Result http.Response :=
  match prepare cfg u with
  | Err e => (w, Err e)
  | Ok (client, req) => (send req w, Do client req)
  end.

Definition newline : string := String "010" EmptyString.

Definition extractParamsFromURL (cfg : Config) (u : string) (w : World) : Outcome World :=
  match createRequestWithCustomHeaders cfg u w with
  | (w, Err e) =>
      Returned (if quiet cfg then w
                else print "Error requesting URL %s: %v\n" [opString u; opError e] w)
  | (w, Ok resp) =>
      match http.Body resp with
      | Err e =>
          Returned (if quiet cfg then w
                    else print "Error reading response body from URL %s: %v\n"
                               [opString u; opError e] w)
      | Ok body =>
          match extractQueryParamsFromHTML body with
          | Panicked r => Panicked r
          | Returned queryParameters =>
              if negb (Nat.ltb 0 (size queryParameters)) then Returned w
              else
                match url.Parse u with
                | Err _ => Panicked nilDereference
                | Ok parsedURL =>
                    let modifiedURL :=
                      url.URL_String (url.withRawQuery parsedURL (url.Encode queryParameters)) in
                    let w :=
                      match WriteString (file w) (modifiedURL +:+ newline) with
                      | (f, Some e) =>
                          let w := setFile f w in
                          if quiet cfg then w
                          else print "Error writing to file: %v\n" [opError e] w
                      | (f, None) => setFile f w
                      end in
                    Returned
                      (if verbose cfg then
                         printParameters queryParameters
                           (print "Extracted parameters from URL %s:\n" [opString u] w)
                       else w)
                end
          end
      end
  end.

(** The flag [-c] before [flag.Parse()] has run: its default. *)
Definition defaultConcurrency : nat := 10.

(** [main] makes the channel and starts the goroutines before it calls
    [flag.Parse()]: [*concurrencyFlag] is still the default there,
    whatever [-c] says. *)
Definition main (flags : Flags) (lines : list string) (w : World) : Pool :=
  start defaultConcurrency lines w.

End Run.

End part_000.

(** ** Documents and stand-ins for the examples *)

Definition element (tag : string) (attrs : list (string * string))
  (children : list html.Node) : html.Node :=
  html.mkNode html.ElementNode tag
              (map (fun kv => html.mkAttribute EmptyString kv.1 kv.2) attrs) children.

(** The tree [html.Parse] builds around the elements of a body. *)
Definition document (body : list html.Node) : html.Node :=
  html.mkNode html.DocumentNode EmptyString []
              [element "html" [] [element "head" [] []; element "body" [] body]].

(** A parser that knows one page, and reports any other input as
    unreadable. *)
Definition pageParser (page : string) (doc : html.Node) (body : string)
  : Result html.Node :=
  if String.eqb body page then Ok doc else Err (errors_New "unexpected EOF").

(** A network on which every request is answered with the same body. *)
Definition serve (body : string) (_ : http.Client) (_ : http.Request)
  : Result http.Response :=
  Ok (http.mkResponse (Ok body)).

Definition quote : string := String "034" EmptyString.

Definition emptyWorld : World := mkWorld [] (mkFile [] None) [] [].

Definition defaults : Config := mkConfig [] EmptyString 30000000000 false false true "GET" EmptyString.

(** The page of one [input] element named [q] whose [value] attribute is
    present and empty. *)
Definition blankPage : string :=
  "<input name=" +:+ quote +:+ "q" +:+ quote +:+ " value=" +:+ quote +:+ quote +:+ ">".
Definition blankDoc : html.Node :=
  document [element "input" [("name", "q"); ("value", EmptyString)] []].

(** The page [<form action="/search?x=1"><input name="q"></form>]. *)
Definition formPage : string :=
  "<form action=" +:+ quote +:+ "/search?x=1" +:+ quote +:+ "><input name="
  +:+ quote +:+ "q" +:+ quote +:+ "></form>".
Definition formDoc : html.Node :=
  document [element "form" [("action", "/search?x=1")]
                    [element "input" [("name", "q")] []]].

(** The page [<a href=":">next</a><input name="q">]: a link whose target
    is not a URL, followed by a field. *)
Definition badLinkPage : string :=
  "<a href=" +:+ quote +:+ ":" +:+ quote +:+ ">next</a><input name="
  +:+ quote +:+ "q" +:+ quote +:+ ">".
Definition badLinkDoc : html.Node :=
  document [element "a" [("href", ":")] [html.mkNode html.TextNode "next" [] []];
            element "input" [("name", "q")] []].

(** ** Vocabulary of the properties *)

(** A step that removes a non-empty prefix. *)
Definition Shortens (step : string → option string) : Prop :=
  ∀ s r, step s = Some r → ∃ p, p ≠ EmptyString ∧ s = p +:+ r.

(** A string is trimmed when no space rune starts or ends it. *)
Definition Trimmed (s : string) : Prop :=
  strings.leadingSpace s = None ∧ strings.trailingSpace (String.rev s) = None.

(** A value is blank when it is empty or white space only. *)
Definition Blank (value : string) : Prop := strings.TrimSpace value = EmptyString.

(** Every value of the map is neither empty nor white space only. *)
Definition Normalized (m : url.Values) : Prop :=
  ∀ key values value, m !! key = Some values → value ∈ values → ¬ Blank value.

(** The first custom header without a colon. *)
Fixpoint firstWithoutColon (headers : list string) : option string :=
  match headers with
  | [] => None
  | header :: rest =>
      if strings.Contains header ":" then firstWithoutColon rest else Some header
  end.

(** No proxy is configured, or the configured one is a URL. *)
Definition proxyUsable (cfg : Config) : Prop :=
  url.isEmpty (proxy cfg) = true ∨ isOk (url.Parse (proxy cfg)) = true.

(** [http.NewRequest] accepts the method and the target of the request. *)
Definition requestBuilds (cfg : Config) (urlStr : string) : Prop :=
  isOk (http.NewRequest (method cfg)
          (if url.isEmpty (baseURL cfg) then urlStr else baseURL cfg +:+ urlStr)) = true.

(** A configuration with a proxy that is not a URL and a header without
    a colon. *)
Definition badProxy : Config :=
  mkConfig ["X-Foo"] ":" 30000000000 false false true "GET" EmptyString.

(** The values a URL text holds for a key; none when it is not a URL. *)
Definition queryValues (raw key : string) : list string :=
  match url.Parse raw with
  | Ok u => url.get (url.Query u) key
  | Err _ => []
  end.

(** What one element adds under [key], in the first file: its
    name/value pair, then the query of its [href], then of its [action]. *)
Definition contributes_main (key : string) (s : html.Node) : list string :=
  match goquery.Attr s "name" with
  | Some name => if decide (key = name) then [goquery.AttrOr s "value" "FUZZ"] else []
  | None => []
  end
  ++ match goquery.Attr s "href" with
     | Some href => queryValues href key
     | None => []
     end
  ++ match goquery.Attr s "action" with
     | Some action => queryValues action key
     | None => []
     end.

(** The same in the second file, before its closing loop: [href] then
    [src], an empty attribute counting as a missing one. *)
Definition contributes_part (key : string) (s : html.Node) : list string :=
  (if negb (url.isEmpty (goquery.AttrOr s "name" EmptyString))
      && bool_decide (key = goquery.AttrOr s "name" EmptyString)
   then [part_000.fuzzIfBlank (goquery.AttrOr s "value" EmptyString)] else [])
  ++ (if negb (url.isEmpty (goquery.AttrOr s "href" EmptyString))
      then queryValues (goquery.AttrOr s "href" EmptyString) key else [])
  ++ (if negb (url.isEmpty (goquery.AttrOr s "src" EmptyString))
      then queryValues (goquery.AttrOr s "src" EmptyString) key else []).

(** The map of the round-trip example. *)
Definition roundTripMap : url.Values := {["q" := ["FUZZ"; "1"]; "id" := ["5"]]}.

(** The page [<a name="id" value="7" href="/item?id=5">item</a>]: one
    element with a name/value pair and a link with a query, both under
    the key [id]. *)
Definition linkPage : string :=
  "<a name=" +:+ quote +:+ "id" +:+ quote +:+ " value=" +:+ quote +:+ "7" +:+ quote
  +:+ " href=" +:+ quote +:+ "/item?id=5" +:+ quote +:+ ">item</a>".
Definition linkElement : html.Node :=
  element "a" [("name", "id"); ("value", "7"); ("href", "/item?id=5")]
          [html.mkNode html.TextNode "item" [] []].
Definition linkDoc : html.Node := document [linkElement].

(** The same element followed by a link that is not a URL:
    [<a name="id" value="7" href="/item?id=5">item</a><a href=":">next</a>]. *)
Definition linkThenBadPage : string :=
  linkPage +:+ "<a href=" +:+ quote +:+ ":" +:+ quote +:+ ">next</a>".
Definition linkThenBadDoc : html.Node :=
  document [linkElement;
            element "a" [("href", ":")] [html.mkNode html.TextNode "next" [] []]].

(** A [form] with the same three attributes:
    [<form name="id" value="7" href="/item?id=5"></form>]. *)
Definition formLinkPage : string :=
  "<form name=" +:+ quote +:+ "id" +:+ quote +:+ " value=" +:+ quote +:+ "7" +:+ quote
  +:+ " href=" +:+ quote +:+ "/item?id=5" +:+ quote +:+ "></form>".
Definition formLinkDoc : html.Node :=
  document [element "form" [("name", "id"); ("value", "7"); ("href", "/item?id=5")] []].

(** A page without any element the extractors look at. *)
Definition plainPage : string := "<p>nothing here</p>".
Definition plainDoc : html.Node :=
  document [element "p" [] [html.mkNode html.TextNode "nothing here" [] []]].

(** A configuration with a base URL: the program fetches
    [baseURL + urlStr] but rewrites [urlStr]. *)
Definition withBase : Config :=
  mkConfig [] EmptyString 30000000000 false false true "GET" "http://h/".

(** A configuration with a well-formed header followed by one without a
    colon. *)
Definition twoHeaders : Config :=
  mkConfig ["Accept: text/html"; "X-Foo"] EmptyString 30000000000 false false true
           "GET" EmptyString.

(** [http://h/page?old=1#top], parsed. *)
Definition oldQueryURL : url.URL :=
  url.mkURL "http" EmptyString None "h" "/page" EmptyString false false
            "old=1" "top" EmptyString.

(** The map of the end-to-end example. *)
Definition formMap : url.Values := {["x" := ["1"]; "q" := ["FUZZ"]]}.

(** One state of the pool can be reached from another. *)
Definition Reaches (work : string → World → Outcome World) (p q : Pool) : Prop :=
  ∃ schedule, run work schedule p = Some q.

(** The run is over: the process died of a panic, or [main] has sent all
    lines, closed the channel, and [wg.Wait()] has returned. *)
Definition Ended (p : Pool) : Prop :=
  is_Some (crashed p)
  ∨ (input p = [] ∧ closed p = true ∧ Forall (fun s => s = Finished) (workers p)).

(** The lines of the output file. *)
Definition output (p : Pool) : list string := written (file (world p)).

Definition holds (s : Worker) : list string :=
  match s with
  | Holding u => [u]
  | _ => []
  end.

(** The URLs still to be processed: in the hands of a goroutine, in the
    channel, or not yet sent. *)
Definition pending (p : Pool) : list string :=
  (workers p ≫= holds) ++ urls p ++ input p.

(** The line [processURL] writes for a URL on a file that can be
    written: none when the URL cannot be fetched, when its page has no
    parameter or when the URL does not parse. *)
Definition lineOf (NewDocumentFromReader : string → Result html.Node)
  (Do : http.Client → http.Request → Result http.Response)
  (cfg : Config) (urlStr : string) : list string :=
  match main_go.prepare cfg urlStr with
  | Err _ => []
  | Ok (client, req) =>
      match Do client req with
      | Err _ => []
      | Ok resp =>
          match http.Body resp with
          | Err _ => []
          | Ok body =>
              let queryParameters :=
                main_go.extractQueryParamsFromHTML NewDocumentFromReader body in
              if Nat.ltb 0 (size queryParameters) then
                match url.Parse urlStr with
                | Err _ => []
                | Ok parsedURL =>
                    [url.URL_String (main_go.rewrite parsedURL queryParameters)
                     +:+ main_go.newline]
                end
              else []
          end
      end
  end.

(** The sequential schedule: every line is sent, received and processed
    by the first goroutine before the next one is sent; then the channel
    is closed and the goroutines leave one after the other. *)
Definition oneByOne (concurrency : nat) (lines : list string) : list Action :=
  (lines ≫= fun _ => [Send; Receive 0; Work 0])
  ++ [Close] ++ (Leave <$> seq 0 concurrency).

(** What every schedule keeps, for a body of the loop that appends the
    lines [out u] to a file whose writes behave as [status] says: the
    lines written and the lines of the URLs still to be processed are
    together the lines of all URLs. *)
Definition Balanced (out : string → list string) (status : option error)
  (n : nat) (total : list string) (p : Pool) : Prop :=
  crashed p = None
  ∧ capacity p = n
  ∧ length (workers p) = n
  ∧ length (urls p) ≤ n
  ∧ failure (file (world p)) = status
  ∧ (closed p = true → input p = [])
  ∧ (Finished ∈ workers p → closed p = true ∧ urls p = [])
  ∧ output p ++ (pending p ≫= out) ≡ₚ total.

(** The lines a URL adds to the output file in [main.go], on a file whose
    writes behave as [status] says. *)
Definition emitted (NewDocumentFromReader : string → Result html.Node)
  (Do : http.Client → http.Request → Result http.Response)
  (cfg : Config) (status : option error) (urlStr : string) : list string :=
  match status with
  | None => lineOf NewDocumentFromReader Do cfg urlStr
  | Some _ => []
  end.

(** Two pages behind two URLs: [/good] serves the page of the end-to-end
    example, [/bad] the page with the link that is not a URL. *)
Definition twoPages (body : string) : Result html.Node :=
  if String.eqb body formPage then Ok formDoc
  else if String.eqb body badLinkPage then Ok badLinkDoc
  else Err (errors_New "unexpected EOF").

Definition twoHosts (_ : http.Client) (req : http.Request) : Result http.Response :=
  if String.eqb (url.Path (http.URL req)) "/good"
  then Ok (http.mkResponse (Ok formPage))
  else Ok (http.mkResponse (Ok badLinkPage)).

Definition goodThenBad : list string := ["http://h/good"; "http://h/bad"].

(** Both lines are sent and received before any is processed, and the
    goroutine holding the second one runs first. *)
Definition racing : list Action := [Send; Send; Receive 0; Receive 1; Work 1].

(** The first line is processed before the second is sent. *)
Definition inOrder : list Action := [Send; Receive 0; Work 0; Send; Receive 1; Work 1].


(** ** Vocabulary of the further properties *)

(** No key of the map holds the empty list. *)
Definition NoEmptyList (m : url.Values) : Prop := ∀ key, m !! key ≠ Some [].

(** A list of values as the entry of a map: no entry for no value. *)
Definition entry (values : list string) : option (list string) :=
  match values with
  | [] => None
  | _ => Some values
  end.

(** The attribute is present, not empty, and not a URL. *)
Definition rejected (s : html.Node) (attrName : string) : bool :=
  negb (url.isEmpty (goquery.AttrOr s attrName EmptyString))
  && negb (isOk (url.Parse (goquery.AttrOr s attrName EmptyString))).

(** The element makes the callback of the second file panic. *)
Definition trips (s : html.Node) : bool := rejected s "href" || rejected s "src".

(** The pairs of a map, key by key in the order of [ks]. *)
Definition pairsOf (v : url.Values) (ks : list string) : list (string * string) :=
  ks ≫= fun k => (fun x => (k, x)) <$> url.get v k.

(** The text of a list of pairs: [key=value] escaped, joined by [&]. *)
Fixpoint render (ps : list (string * string)) : string :=
  match ps with
  | [] => EmptyString
  | (k, x) :: rest =>
      url.QueryEscape k +:+ "=" +:+ url.QueryEscape x
      +:+ match rest with
          | [] => EmptyString
          | _ => "&" +:+ render rest
          end
  end.

(** [m[key] = append(m[key], value)] for every pair in turn. *)
Definition addPairs (m : url.Values) (ps : list (string * string)) : url.Values :=
  foldl (fun m p => url.Add p.1 p.2 m) m ps.

(** The request [processURL] hands to the client, if it gets that far. *)
Definition requested (cfg : Config) (urlStr : string) : list http.Request :=
  match main_go.prepare cfg urlStr with
  | Ok (_, req) => [req]
  | Err _ => []
  end.

(** Adding one well-formed header: the text before the first colon and
    the text after it, both trimmed. *)
Definition addHeader (h : http.Header) (header : string) : http.Header :=
  let '(key, value, _) := strings.Cut header ":" in
  http.Header_Add (strings.TrimSpace key) (strings.TrimSpace value) h.

(** What the channel and the goroutines keep whatever the body of the
    loop does: the buffer within its capacity, the number of goroutines,
    and nothing left to send once the channel is closed. *)
Definition Safe (n : nat) (p : Pool) : Prop :=
  capacity p = n
  ∧ length (workers p) = n
  ∧ length (urls p) ≤ n
  ∧ (closed p = true → input p = []).

(** With one goroutine: the lines written followed by the lines of the
    URL in its hands, of the URLs in the channel and of the URLs not yet
    sent, in that order. *)
Definition Ordered (out : string → list string) (status : option error)
  (total : list string) (p : Pool) : Prop :=
  crashed p = None
  ∧ failure (file (world p)) = status
  ∧ (closed p = true → input p = [])
  ∧ ∃ s, workers p = [s]
         ∧ (s = Finished → closed p = true ∧ urls p = [])
         ∧ output p ++ ((holds s ++ urls p ++ input p) ≫= out) = total.

(** Flags for one goroutine and for three, with the default settings. *)
Definition oneWorker : Flags := mkFlags 1 defaults.
Definition threeWorkers : Flags := mkFlags 3 defaults.


(** * Properties *)

(** ** The library models on examples *)

Example TrimSpace_ascii : strings.TrimSpace "  a b  " = "a b".
Proof. reflexivity. Qed.

Example TrimSpace_nbsp :
  strings.TrimSpace (String "194" (String "160" (String "x" (String "227" (String "128" (String "128" EmptyString))))))
  = "x".
Proof. reflexivity. Qed.

Example SplitN_header : strings.SplitN "Host: a:b" ":" 2 = ["Host"; " a:b"].
Proof. reflexivity. Qed.

Example SplitN_no_colon : strings.SplitN "X-Foo" ":" 2 = ["X-Foo"].
Proof. reflexivity. Qed.

Example QueryEscape_reserved : url.QueryEscape "a b&c=d/é~" = "a+b%26c%3Dd%2F%C3%A9~".
Proof. reflexivity. Qed.

Example QueryUnescape_plus : url.QueryUnescape "a+b%26c" = Ok "a b&c".
Proof. reflexivity. Qed.

Example QueryUnescape_bad : url.QueryUnescape "100%zz" = Err (EscapeError "%zz").
Proof. reflexivity. Qed.

Example ParseQuery_empty_value : url.ParseQuery "x=&y" = ({["x" := [EmptyString]; "y" := [EmptyString]]}, None).
Proof. vm_compute. reflexivity. Qed.

Example Encode_sorted :
  url.Encode (url.Add "q" "1" (url.Add "id" "5" (url.Add "q" "FUZZ" ∅))) = "id=5&q=FUZZ&q=1".
Proof. vm_compute. reflexivity. Qed.

Example Parse_relative :
  url.Parse "/search?x=1" = Ok (url.mkURL EmptyString EmptyString None EmptyString "/search" EmptyString false false "x=1" EmptyString EmptyString).
Proof. reflexivity. Qed.

Example Parse_absolute :
  url.Parse "http://h/page" = Ok (url.mkURL "http" EmptyString None "h" "/page" EmptyString false false EmptyString EmptyString EmptyString).
Proof. reflexivity. Qed.

Example Parse_full :
  url.Parse "HTTPS://u:p@Host.example:8080/a%20b/c?k=v&k2#frag"
  = Ok (url.mkURL "https" EmptyString (Some (url.mkUserinfo "u" "p" true)) "Host.example:8080"
                  "/a b/c" EmptyString false false "k=v&k2" "frag" EmptyString).
Proof. reflexivity. Qed.

Example Parse_missing_scheme :
  url.Parse ":" = Err (url_Error "parse" ":" (errors_New "missing protocol scheme")).
Proof. reflexivity. Qed.

Example Parse_bad_escape :
  url.Parse "/a%zz" = Err (url_Error "parse" "/a%zz" (EscapeError "%zz")).
Proof. reflexivity. Qed.

Example Parse_colon_segment :
  url.Parse "a:b/c" = Ok (url.mkURL "a" "b/c" None EmptyString EmptyString EmptyString false false EmptyString EmptyString EmptyString).
Proof. reflexivity. Qed.

Example String_roundtrip :
  url.URL_String <$> (match url.Parse "HTTPS://u:p@Host.example:8080/a%20b/c?k=v&k2#frag" with
                      | Ok u => Some u | Err _ => None end)
  = Some "https://u:p@Host.example:8080/a%20b/c?k=v&k2#frag".
Proof. reflexivity. Qed.

Example selector_main :
  goquery.compile "a, form, input, select, textarea"
  = ["a"; "form"; "input"; "select"; "textarea"].
Proof. reflexivity. Qed.

Example selector_part :
  goquery.compile "input, select, textarea, a" = ["input"; "select"; "textarea"; "a"].
Proof. reflexivity. Qed.

Example Find_form :
  html.Data <$> goquery.Find formDoc "a, form, input, select, textarea" = ["form"; "input"]
  ∧ html.Data <$> goquery.Find formDoc "input, select, textarea, a" = ["input"].
Proof. split; reflexivity. Qed.

(** ** Strings *)

Section StringFacts.

Implicit Types s r x : string.

Lemma app_cons c s x : String c s +:+ x = String c (s +:+ x).
Proof. reflexivity. Qed.

Lemma app_empty_l s : EmptyString +:+ s = s.
Proof. reflexivity. Qed.

Lemma app_empty_r s : s +:+ EmptyString = s.
Proof. induction s as [|c s IH]; [done|]. by rewrite app_cons, IH. Qed.

Lemma app_assoc' s r x : (s +:+ r) +:+ x = s +:+ (r +:+ x).
Proof. induction s as [|c s IH]; [done|]. by rewrite !app_cons, IH. Qed.

Lemma string_length_app s r : String.length (s +:+ r) = String.length s + String.length r.
Proof. induction s as [|c s IH]; [done|]. rewrite app_cons. simpl. by rewrite IH. Qed.

Lemma rev_app_spec s r : String.rev_app s r = String.rev s +:+ r.
Proof.
  unfold String.rev. revert r.
  induction s as [|c s IH]; intros r; simpl; [done|].
  rewrite (IH (String c r)), (IH (String c EmptyString)).
  by rewrite app_assoc'.
Qed.

Lemma rev_cons c s : String.rev (String c s) = String.rev s +:+ String c EmptyString.
Proof. unfold String.rev at 1. simpl. apply rev_app_spec. Qed.

Lemma rev_app_distr' s r : String.rev (s +:+ r) = String.rev r +:+ String.rev s.
Proof.
  induction s as [|c s IH].
  - by rewrite app_empty_l, app_empty_r.
  - by rewrite app_cons, !rev_cons, IH, app_assoc'.
Qed.

Lemma rev_involutive' s : String.rev (String.rev s) = s.
Proof.
  induction s as [|c s IH]; [done|].
  by rewrite rev_cons, rev_app_distr', IH.
Qed.

Lemma string_length_rev s : String.length (String.rev s) = String.length s.
Proof.
  induction s as [|c s IH]; [done|].
  rewrite rev_cons, string_length_app, IH. simpl. lia.
Qed.

Lemma isEmpty_true s : url.isEmpty s = true ↔ s = EmptyString.
Proof. unfold url.isEmpty. apply String.eqb_eq. Qed.

Lemma isEmpty_false s : url.isEmpty s = false ↔ s ≠ EmptyString.
Proof. unfold url.isEmpty. apply String.eqb_neq. Qed.

End StringFacts.

(** ** [TrimSpace] leaves no space at either end *)

Section Trim.

Implicit Types s r x : string.

Lemma leadingSpace_shortens : Shortens strings.leadingSpace.
Proof.
  intros s r. unfold strings.leadingSpace.
  destruct s as [|c1 [|c2 [|c3 r3]]]; try done;
    repeat (case_match; try done); intros [= <-].
  - by exists (String c1 EmptyString).
  - by exists (String c1 EmptyString).
  - by exists (String c1 (String c2 EmptyString)).
  - by exists (String c1 EmptyString).
  - by exists (String c1 (String c2 EmptyString)).
  - by exists (String c1 (String c2 (String c3 EmptyString))).
Qed.

Lemma trailingSpace_shortens : Shortens strings.trailingSpace.
Proof.
  intros s r. unfold strings.trailingSpace.
  destruct s as [|c1 [|c2 [|c3 r3]]]; try done;
    repeat (case_match; try done); intros [= <-].
  - by exists (String c1 EmptyString).
  - by exists (String c1 EmptyString).
  - by exists (String c1 (String c2 EmptyString)).
  - by exists (String c1 EmptyString).
  - by exists (String c1 (String c2 EmptyString)).
  - by exists (String c1 (String c2 (String c3 EmptyString))).
Qed.

Lemma strip_suffix step fuel s :
  Shortens step → ∃ p, s = p +:+ strings.strip step fuel s.
Proof.
  intros Hstep. revert s.
  induction fuel as [|fuel IH]; intros s; simpl.
  - by exists EmptyString.
  - destruct (step s) as [r|] eqn:Hs; [|by exists EmptyString].
    destruct (Hstep _ _ Hs) as (p & _ & ->).
    destruct (IH r) as [p' Hp'].
    exists (p +:+ p'). by rewrite app_assoc', <-Hp'.
Qed.

Lemma strip_done step fuel s :
  Shortens step → String.length s ≤ fuel → step (strings.strip step fuel s) = None.
Proof.
  intros Hstep. revert s.
  induction fuel as [|fuel IH]; intros s Hlen; simpl.
  - destruct (step s) as [r|] eqn:Hs; [|done].
    destruct (Hstep _ _ Hs) as (p & Hp & ->).
    destruct p; [done|]. rewrite app_cons in Hlen. simpl in Hlen. lia.
  - destruct (step s) as [r|] eqn:Hs; [|done].
    apply IH. destruct (Hstep _ _ Hs) as (p & Hp & ->).
    destruct p; [done|]. rewrite app_cons in Hlen. simpl in Hlen.
    rewrite string_length_app in Hlen. lia.
Qed.

Lemma strip_fixed step fuel s : step s = None → strings.strip step fuel s = s.
Proof. intros Hs. destruct fuel; simpl; [done|]. by rewrite Hs. Qed.

(** Whether a string starts with a space is decided on the string's
    first rune: cutting a tail off cannot make a space appear. *)
Lemma leadingSpace_app s r x :
  strings.leadingSpace s = Some r → strings.leadingSpace (s +:+ x) = Some (r +:+ x).
Proof.
  unfold strings.leadingSpace.
  destruct s as [|c1 [|c2 [|c3 r3]]]; try done; rewrite ?app_cons, ?app_empty_l;
    repeat (case_match; try done); by intros [= <-].
Qed.

Lemma leadingSpace_prefix s x :
  strings.leadingSpace (s +:+ x) = None → strings.leadingSpace s = None.
Proof.
  intros H. destruct (strings.leadingSpace s) as [r|] eqn:Hs; [|done].
  apply (leadingSpace_app _ _ x) in Hs. congruence.
Qed.

Lemma TrimLeftSpace_done s : strings.leadingSpace (strings.TrimLeftSpace s) = None.
Proof. apply strip_done; [apply leadingSpace_shortens|done]. Qed.

Lemma TrimRightSpace_done s :
  strings.trailingSpace (String.rev (strings.TrimRightSpace s)) = None.
Proof.
  unfold strings.TrimRightSpace. rewrite rev_involutive'.
  apply strip_done; [apply trailingSpace_shortens|]. by rewrite string_length_rev.
Qed.

Lemma TrimRightSpace_prefix s : ∃ x, s = strings.TrimRightSpace s +:+ x.
Proof.
  unfold strings.TrimRightSpace.
  destruct (strip_suffix strings.trailingSpace (String.length s) (String.rev s)
              trailingSpace_shortens) as [p Hp].
  exists (String.rev p).
  rewrite <-rev_app_distr', <-Hp. by rewrite rev_involutive'.
Qed.

Lemma TrimSpace_Trimmed s : Trimmed (strings.TrimSpace s).
Proof.
  split; [|apply TrimRightSpace_done].
  unfold strings.TrimSpace.
  destruct (TrimRightSpace_prefix (strings.TrimLeftSpace s)) as [x Hx].
  apply (leadingSpace_prefix _ x). rewrite <-Hx. apply TrimLeftSpace_done.
Qed.

Lemma Trimmed_TrimSpace s : Trimmed s → strings.TrimSpace s = s.
Proof.
  intros [Hl Hr]. unfold strings.TrimSpace, strings.TrimLeftSpace.
  rewrite (strip_fixed _ _ _ Hl). unfold strings.TrimRightSpace.
  rewrite (strip_fixed _ _ _ Hr). apply rev_involutive'.
Qed.

Lemma TrimSpace_idemp s : strings.TrimSpace (strings.TrimSpace s) = strings.TrimSpace s.
Proof. apply Trimmed_TrimSpace, TrimSpace_Trimmed. Qed.

End Trim.

(** ** [url.Values] *)

Section ValuesFacts.

Implicit Types m params : url.Values.

Lemma get_empty key : url.get ∅ key = [].
Proof. unfold url.get. by rewrite lookup_total_empty. Qed.

Lemma get_Add key value m k :
  url.get (url.Add key value m) k
  = url.get m k ++ (if decide (k = key) then [value] else []).
Proof.
  unfold url.Add, url.get. case_decide as Hk.
  - subst. by rewrite lookup_total_insert_eq.
  - rewrite lookup_total_insert_ne by done. by rewrite app_nil_r.
Qed.

Lemma get_Add_all key m values k :
  url.get (foldl (fun params value => url.Add key value params) m values) k
  = url.get m k ++ (if decide (k = key) then values else []).
Proof.
  revert m. induction values as [|v values IH]; intros m; simpl.
  - case_decide; by rewrite app_nil_r.
  - rewrite IH, get_Add. case_decide; rewrite <-app_assoc; [done|].
    by rewrite !app_nil_r.
Qed.

Lemma get_lookup m k values : m !! k = Some values → url.get m k = values.
Proof. unfold url.get. intros H. by rewrite lookup_total_alt, H. Qed.

Lemma get_lookup_None m k : m !! k = None → url.get m k = [].
Proof. unfold url.get. intros H. by rewrite lookup_total_alt, H. Qed.

(** Merging the query of a URL, the way [main.go] does it: for every key
    the values of the source follow the values already there. *)
Lemma get_merge_Add params (source : url.Values) k :
  url.get (map_fold (fun key values params =>
                       foldl (fun params value => url.Add key value params) params values)
                    params source) k
  = url.get params k ++ url.get source k.
Proof.
  apply (map_fold_weak_ind (fun r (src : url.Values) =>
           url.get r k = url.get params k ++ url.get src k)).
  - by rewrite get_empty, app_nil_r.
  - intros key values src r Hnone IH. rewrite get_Add_all, IH.
    unfold url.get at 4. rewrite lookup_total_insert.
    case_decide as Hk.
    + subst. rewrite (get_lookup_None src key Hnone), !app_nil_r.
      by case_decide.
    + case_decide; [congruence|]. by rewrite app_nil_r.
Qed.

(** The same for [mergeQueryParameters] of the second file. *)
Lemma get_mergeQueryParameters params1 params2 k :
  url.get (part_000.mergeQueryParameters params1 params2) k
  = url.get params1 k ++ url.get params2 k.
Proof.
  unfold part_000.mergeQueryParameters.
  apply (map_fold_weak_ind (fun r (src : url.Values) =>
           url.get r k = url.get params1 k ++ url.get src k)).
  - by rewrite get_empty, app_nil_r.
  - intros key values src r Hnone IH.
    unfold url.get at 1 4. rewrite !lookup_total_insert.
    case_decide as Hk.
    + subst. fold (url.get r k). rewrite IH.
      by rewrite (get_lookup_None src k Hnone), app_nil_r.
    + fold (url.get r k) (url.get src k). apply IH.
Qed.

Lemma size_positive m : Nat.ltb 0 (size m) = false ↔ m = ∅.
Proof.
  rewrite Nat.ltb_ge, <-map_size_empty_iff. lia.
Qed.

End ValuesFacts.

(** ** The closing loop of the second file *)

Section Normalization.

Lemma fuzzIfBlank_not_blank value : ¬ Blank (part_000.fuzzIfBlank value).
Proof.
  unfold Blank, part_000.fuzzIfBlank.
  destruct (url.isEmpty (strings.TrimSpace value)) eqn:He; simpl; [done|].
  rewrite TrimSpace_idemp, He. rewrite TrimSpace_idemp.
  by apply isEmpty_false.
Qed.

Lemma fuzzIfBlank_blank value : Blank value → part_000.fuzzIfBlank value = "FUZZ".
Proof. unfold Blank, part_000.fuzzIfBlank. by intros ->. Qed.

Lemma fuzzIfBlank_keeps value :
  ¬ Blank value → part_000.fuzzIfBlank value = strings.TrimSpace value.
Proof.
  unfold Blank, part_000.fuzzIfBlank. intros H%isEmpty_false.
  by rewrite TrimSpace_idemp, H.
Qed.

Lemma fuzzIfBlank_idemp value :
  part_000.fuzzIfBlank (part_000.fuzzIfBlank value) = part_000.fuzzIfBlank value.
Proof.
  rewrite (fuzzIfBlank_keeps (part_000.fuzzIfBlank value))
    by apply fuzzIfBlank_not_blank.
  unfold part_000.fuzzIfBlank.
  case_match; [reflexivity|]. apply TrimSpace_idemp.
Qed.

(** The second file's extractor returns only normalized maps, whatever
    the parser and the page. *)
Lemma part_000_extract_Normalized parser body m :
  part_000.extractQueryParamsFromHTML parser body = Returned m → Normalized m.
Proof.
  unfold part_000.extractQueryParamsFromHTML.
  destruct (parser body) as [doc|e].
  - destruct (part_000.Each _ _) as [raw|]; [|done]. intros [= <-].
    intros key values value Hkey Hin.
    rewrite lookup_fmap in Hkey.
    destruct (raw !! key) as [vs|]; [|done]. injection Hkey as <-.
    apply list_elem_of_fmap in Hin as (v0 & -> & _).
    apply fuzzIfBlank_not_blank.
  - intros [= <-] key values value Hkey. by rewrite lookup_empty in Hkey.
Qed.

End Normalization.

(** ** Claims on concrete pages *)

(** C1 (defect of main.go): the extractor of main.go keeps an empty
    value.  On the page of one [input] named [q] with an empty [value]
    attribute it returns the map from [q] to the list of the empty
    string, which is not normalized: [AttrOr] supplies FUZZ only for
    a missing attribute and no closing pass follows.  The second file
    returns [q -> ["FUZZ"]] on the same page. *)
Theorem C1_main_go_keeps_blank_value :
  main_go.extractQueryParamsFromHTML (pageParser blankPage blankDoc) blankPage
    = {["q" := [EmptyString]]}
  ∧ ¬ Normalized (main_go.extractQueryParamsFromHTML (pageParser blankPage blankDoc) blankPage)
  ∧ part_000.extractQueryParamsFromHTML (pageParser blankPage blankDoc) blankPage
    = Returned {["q" := ["FUZZ"]]}.
Proof.
  assert (main_go.extractQueryParamsFromHTML (pageParser blankPage blankDoc) blankPage
          = {["q" := [EmptyString]]}) as Hm by (by vm_compute).
  split; [done|]. split.
  - rewrite Hm. intros H.
    apply (H "q" [EmptyString] EmptyString); [done|set_solver|done].
  - by vm_compute.
Qed.

(** The first file on the page of the end-to-end example: the map
    [x -> ["1"], q -> ["FUZZ"]] and the line [http://h/page?q=FUZZ&x=1]. *)
Lemma main_go_end_to_end :
  main_go.extractQueryParamsFromHTML (pageParser formPage formDoc) formPage
    = {["x" := ["1"]; "q" := ["FUZZ"]]}
  ∧ ∃ req,
      main_go.processURL (pageParser formPage formDoc) (serve formPage)
                         defaults "http://h/page" emptyWorld
      = (mkWorld [req] (mkFile ["http://h/page?q=FUZZ&x=1" +:+ main_go.newline] None) [] [],
         None).
Proof. split; [by vm_compute|]. eexists. by vm_compute. Qed.

(** C2 (defect of the second file): on the page
    [<form action="/search?x=1"><input name="q"></form>] and the URL
    [http://h/page] the second file selects [input, select, textarea, a]
    only and reads [src] instead of [action]: it returns [q -> ["FUZZ"]]
    and writes [http://h/page?q=FUZZ], without [x=1]. *)
Theorem C2_part_000_misses_form_action :
  part_000.extractQueryParamsFromHTML (pageParser formPage formDoc) formPage
    = Returned {["q" := ["FUZZ"]]}
  ∧ ∃ req,
      part_000.extractParamsFromURL (pageParser formPage formDoc) (serve formPage)
                                    defaults "http://h/page" emptyWorld
      = Returned (mkWorld [req] (mkFile ["http://h/page?q=FUZZ" +:+ part_000.newline] None)
                          [] []).
Proof. split; [by vm_compute|]. eexists. by vm_compute. Qed.

(** The first file skips a target that is not a URL. *)
Lemma main_go_skips_malformed rawurl e params :
  url.Parse rawurl = Err e → main_go.parseURLAndAddQueryParameters rawurl params = params.
Proof. unfold main_go.parseURLAndAddQueryParameters. by intros ->. Qed.

Lemma main_go_bad_link :
  main_go.extractQueryParamsFromHTML (pageParser badLinkPage badLinkDoc) badLinkPage
  = {["q" := ["FUZZ"]]}.
Proof. by vm_compute. Qed.

(** C3 (defect of the second file): on the page
    [<a href=":">next</a><input name="q">] the second file drops the
    error of [url.Parse] and calls [Query] on the nil URL: the extractor
    panics and returns nothing, where the first file returns
    [q -> ["FUZZ"]]. *)
Theorem C3_part_000_panics_on_malformed_href :
  url.Parse ":" = Err (url_Error "parse" ":" (errors_New "missing protocol scheme"))
  ∧ part_000.extractQueryParamsFromHTML (pageParser badLinkPage badLinkDoc) badLinkPage
    = Panicked part_000.nilDereference
  ∧ part_000.extractParamsFromURL (pageParser badLinkPage badLinkDoc) (serve badLinkPage)
                                  defaults "http://h/page" emptyWorld
    = Panicked part_000.nilDereference.
Proof. repeat split; by vm_compute. Qed.

(** ** Custom headers *)

Section Headers.

Lemma HasPrefix_empty s : strings.HasPrefix s EmptyString = true.
Proof. by destruct s. Qed.

Lemma Cut_byte s c before after :
  strings.Cut s (String c EmptyString) = (before, after, true) →
  s = before +:+ String c after ∧ strings.CountByte before c = 0.
Proof.
  revert before after. induction s as [|d s IH]; intros before after; simpl.
  - done.
  - rewrite HasPrefix_empty, andb_true_r. destruct (Ascii.eqb d c) eqn:Hd; simpl.
    + apply Ascii.eqb_eq in Hd as ->. by intros [= <- <-].
    + destruct (strings.Cut s (String c EmptyString)) as [[b a] f].
      intros [= <- <- ->]. destruct (IH b a eq_refl) as [-> Hc].
      split; [done|]. simpl. by rewrite Hd.
Qed.

Lemma SplitN_two header :
  strings.SplitN header ":" 2
  = match strings.Cut header ":" with
    | (key, value, true) => [key; value]
    | _ => [header]
    end.
Proof. simpl. by destruct (strings.Cut header ":") as [[key value] []]. Qed.

Lemma addCustomHeaders_colon header rest h key value :
  strings.Cut header ":" = (key, value, true) →
  addCustomHeaders (header :: rest) h
  = addCustomHeaders rest
      (http.Header_Add (strings.TrimSpace key) (strings.TrimSpace value) h).
Proof.
  intros Hcut. change (addCustomHeaders (header :: rest) h) with
    (match strings.SplitN header ":" 2 with
     | [key; value] =>
         addCustomHeaders rest
           (http.Header_Add (strings.TrimSpace key) (strings.TrimSpace value) h)
     | _ => inr header
     end).
  by rewrite SplitN_two, Hcut.
Qed.

Lemma addCustomHeaders_no_colon header rest h :
  strings.Contains header ":" = false → addCustomHeaders (header :: rest) h = inr header.
Proof.
  intros Hno. change (addCustomHeaders (header :: rest) h) with
    (match strings.SplitN header ":" 2 with
     | [key; value] =>
         addCustomHeaders rest
           (http.Header_Add (strings.TrimSpace key) (strings.TrimSpace value) h)
     | _ => inr header
     end).
  rewrite SplitN_two. unfold strings.Contains in Hno.
  destruct (strings.Cut header ":") as [[key value] []]; [done|done].
Qed.

Lemma addCustomHeaders_first headers h bad :
  firstWithoutColon headers = Some bad → addCustomHeaders headers h = inr bad.
Proof.
  revert h. induction headers as [|header rest IH]; intros h; [done|].
  simpl firstWithoutColon.
  destruct (strings.Contains header ":") eqn:Hc.
  - intros Hrest. unfold strings.Contains in Hc.
    destruct (strings.Cut header ":") as [[key value] found] eqn:Hcut.
    simpl in Hc. subst found.
    rewrite (addCustomHeaders_colon _ _ _ _ _ Hcut). by apply IH.
  - intros [= <-]. by apply addCustomHeaders_no_colon.
Qed.

Lemma firstWithoutColon_exists headers header :
  header ∈ headers → strings.Contains header ":" = false →
  ∃ bad, firstWithoutColon headers = Some bad ∧ strings.Contains bad ":" = false.
Proof.
  induction headers as [|h0 rest IH]; intros Hin Hno.
  - by apply elem_of_nil in Hin.
  - simpl. destruct (strings.Contains h0 ":") eqn:Hc.
    + apply elem_of_cons in Hin as [->|Hin]; [congruence|]. by apply IH.
    + by exists h0.
Qed.

End Headers.

(** ** Requests *)

Section Requests.

Variable NewDocumentFromReader : string → Result html.Node.
Variable Do : http.Client → http.Request → Result http.Response.

(** The two files prepare the same client and request; they differ in
    the errors only. *)
Lemma prepare_agree cfg urlStr ready :
  main_go.prepare cfg urlStr = Ok ready ↔ part_000.prepare cfg urlStr = Ok ready.
Proof.
  unfold main_go.prepare, part_000.prepare.
  destruct (url.isEmpty (proxy cfg)); [|destruct (url.Parse (proxy cfg))];
    try done;
    destruct (http.NewRequest _ _); try done;
    by destruct (addCustomHeaders _ _).
Qed.

Lemma main_go_prepare_bad_header cfg urlStr bad :
  firstWithoutColon (customHeaders cfg) = Some bad →
  ∃ e, main_go.prepare cfg urlStr = Err e
       ∧ (proxyUsable cfg → requestBuilds cfg urlStr →
          e = fmt_Errorf "invalid header format: %s" [opString bad]).
Proof.
  intros Hbad. unfold main_go.prepare, proxyUsable, requestBuilds.
  destruct (url.isEmpty (proxy cfg)) eqn:Hp; [|destruct (url.Parse (proxy cfg)) eqn:Hu].
  - destruct (http.NewRequest _ _) as [req|e].
    + rewrite (addCustomHeaders_first _ _ _ Hbad). by eexists.
    + eexists. split; [done|]. by intros _ ?.
  - destruct (http.NewRequest _ _) as [req|e].
    + rewrite (addCustomHeaders_first _ _ _ Hbad). by eexists.
    + eexists. split; [done|]. by intros _ ?.
  - eexists. split; [done|]. by intros [?|?].
Qed.

Lemma part_000_prepare_bad_header cfg urlStr bad :
  firstWithoutColon (customHeaders cfg) = Some bad →
  ∃ e, part_000.prepare cfg urlStr = Err e
       ∧ (proxyUsable cfg → requestBuilds cfg urlStr →
          e = fmt_Errorf "Invalid header format: %s" [opString bad]).
Proof.
  intros Hbad. unfold part_000.prepare, proxyUsable, requestBuilds.
  destruct (url.isEmpty (proxy cfg)) eqn:Hp; [|destruct (url.Parse (proxy cfg)) eqn:Hu].
  - destruct (http.NewRequest _ _) as [req|e].
    + rewrite (addCustomHeaders_first _ _ _ Hbad). by eexists.
    + eexists. split; [done|]. by intros _ ?.
  - destruct (http.NewRequest _ _) as [req|e].
    + rewrite (addCustomHeaders_first _ _ _ Hbad). by eexists.
    + eexists. split; [done|]. by intros _ ?.
  - eexists. split; [done|]. by intros [?|?].
Qed.

(** C4, as stated, at a proxy that is not a URL: the header [X-Foo] has
    no colon, and the error of [processURL] is the one of the proxy, not
    an invalid-header-format error. *)
Lemma C4_counterexample_bad_proxy :
  "X-Foo" ∈ customHeaders badProxy
  ∧ strings.Contains "X-Foo" ":" = false
  ∧ main_go.processURL (pageParser plainPage plainDoc) (serve plainPage)
                       badProxy "http://h/page" emptyWorld
    = (emptyWorld,
       Some (fmt_Errorf "error parsing proxy URL: %v"
               [opError (url_Error "parse" ":" (errors_New "missing protocol scheme"))]))
  ∧ ¬ ∃ header,
        (main_go.processURL (pageParser plainPage plainDoc) (serve plainPage)
                            badProxy "http://h/page" emptyWorld).2
        = Some (fmt_Errorf "invalid header format: %s" [opString header]).
Proof.
  split; [set_solver|]. split; [done|]. split; [by vm_compute|].
  intros [header H]. vm_compute in H. discriminate H.
Qed.

(** C4 (amended): when some custom header has no colon, processing fails
    with the world unchanged, so no request is handed to the client; the
    error is the invalid-header-format error of the first such header
    whenever the proxy is usable and the request can be built (an
    unusable proxy or an unbuildable request is reported first).  A
    header with a colon is split at its first colon, and the trimmed key
    and value are added to the request. *)
Theorem C4_header_without_colon cfg urlStr w header :
  header ∈ customHeaders cfg →
  strings.Contains header ":" = false →
  ∃ bad,
    firstWithoutColon (customHeaders cfg) = Some bad
    ∧ strings.Contains bad ":" = false
    ∧ (∃ e, main_go.processURL NewDocumentFromReader Do cfg urlStr w = (w, Some e)
            ∧ (proxyUsable cfg → requestBuilds cfg urlStr →
               e = fmt_Errorf "invalid header format: %s" [opString bad]))
    ∧ (∃ e, part_000.createRequestWithCustomHeaders Do cfg urlStr w = (w, Err e)
            ∧ (proxyUsable cfg → requestBuilds cfg urlStr →
               e = fmt_Errorf "Invalid header format: %s" [opString bad]))
    ∧ (∀ hd rest h key value,
         strings.Cut hd ":" = (key, value, true) →
         hd = key +:+ ":" +:+ value
         ∧ strings.CountByte key ":" = 0
         ∧ addCustomHeaders (hd :: rest) h
           = addCustomHeaders rest
               (http.Header_Add (strings.TrimSpace key) (strings.TrimSpace value) h)).
Proof.
  intros Hin Hno.
  destruct (firstWithoutColon_exists _ _ Hin Hno) as (bad & Hbad & Hbadno).
  exists bad. split; [done|]. split; [done|]. split; [|split].
  - destruct (main_go_prepare_bad_header cfg urlStr bad Hbad) as (e & He & Hfmt).
    exists e. split; [|done]. unfold main_go.processURL. by rewrite He.
  - destruct (part_000_prepare_bad_header cfg urlStr bad Hbad) as (e & He & Hfmt).
    exists e. split; [|done]. unfold part_000.createRequestWithCustomHeaders.
    by rewrite He.
  - intros hd rest h key value Hcut.
    destruct (Cut_byte _ _ _ _ Hcut) as [Hhd Hcount].
    split; [done|]. split; [done|]. by apply addCustomHeaders_colon.
Qed.

(** C5: when the page of a fetched URL yields no parameter, processing
    succeeds and leaves the world as it was after the request: nothing is
    written and the URL is not even parsed for rewriting.  This holds in
    the first file, and in the second when its extractor returns the
    empty map. *)
Theorem C5_no_parameters_no_output cfg urlStr w client req resp body :
  main_go.prepare cfg urlStr = Ok (client, req) →
  Do client req = Ok resp →
  http.Body resp = Ok body →
  (main_go.extractQueryParamsFromHTML NewDocumentFromReader body = ∅ →
   main_go.processURL NewDocumentFromReader Do cfg urlStr w = (send req w, None))
  ∧ (part_000.extractQueryParamsFromHTML NewDocumentFromReader body = Returned ∅ →
     part_000.extractParamsFromURL NewDocumentFromReader Do cfg urlStr w
     = Returned (send req w))
  ∧ file (send req w) = file w
  ∧ sent (send req w) = sent w ++ [req].
Proof.
  intros Hprep HDo Hbody. split; [|split; [|done]].
  - intros Hmain. unfold main_go.processURL. by rewrite Hprep, HDo, Hbody, Hmain.
  - intros Hpart.
    unfold part_000.extractParamsFromURL, part_000.createRequestWithCustomHeaders.
    apply prepare_agree in Hprep. by rewrite Hprep, HDo, Hbody, Hpart.
Qed.

(** C8: when the parser fails on the body, both extractors return the
    empty map (the second one without a panic), and a URL whose page is
    that body is processed like a page without parameters: success,
    nothing written. *)
Theorem C8_parse_failure_is_empty body e :
  NewDocumentFromReader body = Err e →
  main_go.extractQueryParamsFromHTML NewDocumentFromReader body = ∅
  ∧ part_000.extractQueryParamsFromHTML NewDocumentFromReader body = Returned ∅
  ∧ ∀ cfg urlStr w client req resp,
      main_go.prepare cfg urlStr = Ok (client, req) →
      Do client req = Ok resp →
      http.Body resp = Ok body →
      main_go.processURL NewDocumentFromReader Do cfg urlStr w = (send req w, None)
      ∧ part_000.extractParamsFromURL NewDocumentFromReader Do cfg urlStr w
        = Returned (send req w)
      ∧ file (send req w) = file w.
Proof.
  intros Hparse.
  assert (main_go.extractQueryParamsFromHTML NewDocumentFromReader body = ∅) as Hm.
  { unfold main_go.extractQueryParamsFromHTML. by rewrite Hparse. }
  assert (part_000.extractQueryParamsFromHTML NewDocumentFromReader body = Returned ∅)
    as Hp.
  { unfold part_000.extractQueryParamsFromHTML. by rewrite Hparse. }
  split; [done|]. split; [done|].
  intros cfg urlStr w client req resp Hprep HDo Hbody.
  split; [|split; [|done]].
  - unfold main_go.processURL. by rewrite Hprep, HDo, Hbody, Hm.
  - unfold part_000.extractParamsFromURL, part_000.createRequestWithCustomHeaders.
    apply prepare_agree in Hprep. by rewrite Hprep, HDo, Hbody, Hp.
Qed.

End Requests.

(** ** The query encoding *)

Lemma unescapeCheck_QueryEscape s :
  url.unescapeCheck (url.escape s url.encodeQueryComponent) url.encodeQueryComponent = None.
Proof.
  induction s as [|c s IH]; [done|].
  destruct c as [[] [] [] [] [] [] [] []]; exact IH.
Qed.

Lemma unescapeBytes_QueryEscape s :
  url.unescapeBytes (url.escape s url.encodeQueryComponent) url.encodeQueryComponent = s.
Proof.
  induction s as [|c s IH]; [done|].
  destruct c as [[] [] [] [] [] [] [] []]; exact (f_equal (String _) IH).
Qed.

(** Unescaping undoes escaping, for every key and value. *)
Lemma QueryUnescape_QueryEscape s : url.QueryUnescape (url.QueryEscape s) = Ok s.
Proof.
  unfold url.QueryUnescape, url.QueryEscape, url.unescape.
  by rewrite unescapeCheck_QueryEscape, unescapeBytes_QueryEscape.
Qed.

Lemma Cut_length s c before after found :
  strings.Cut s (String c EmptyString) = (before, after, found) →
  String.length after ≤ pred (String.length s).
Proof.
  revert before after found.
  induction s as [|d s IH]; intros before after found; simpl.
  - by intros [= _ <- _].
  - rewrite HasPrefix_empty, andb_true_r. destruct (Ascii.eqb d c).
    + by intros [= _ <- _].
    + destruct (strings.Cut s (String c EmptyString)) as [[b a] f].
      intros [= _ <- _]. specialize (IH b a f eq_refl). lia.
Qed.

Lemma Cut_shorter s c before after found :
  s ≠ EmptyString →
  strings.Cut s (String c EmptyString) = (before, after, found) →
  String.length after < String.length s.
Proof.
  intros Hs Hcut%Cut_length. destruct s; [done|]. simpl in *. lia.
Qed.

(** The loop of [parseQuery] ends: [len(query)] turns consume the whole
    query, and more fuel changes nothing. *)
Lemma parseQuery_fuel fuel fuel' m err query :
  String.length query ≤ fuel → String.length query ≤ fuel' →
  url.parseQuery fuel m err query = url.parseQuery fuel' m err query.
Proof.
  revert fuel' m err query.
  induction fuel as [|fuel IH]; intros fuel' m err query Hf Hf'.
  - destruct query; [|simpl in Hf; lia]. by destruct fuel'.
  - destruct fuel' as [|fuel'].
    + destruct query; [done|simpl in Hf'; lia].
    + simpl. destruct (String.eqb query EmptyString) eqn:Hq; [done|].
      apply String.eqb_neq in Hq.
      destruct (strings.Cut query "&") as [[key rest] found] eqn:Hcut.
      pose proof (Cut_shorter _ _ _ _ _ Hq Hcut).
      destruct (url.parseSegment m err key). apply IH; lia.
Qed.

(** C7: the map [q -> ["FUZZ", "1"], id -> ["5"]] is encoded as
    [id=5&q=FUZZ&q=1], and parsing that query gives the map back, without
    an error. *)
Theorem C7_encode_parse_round_trip :
  url.Encode roundTripMap = "id=5&q=FUZZ&q=1"
  ∧ url.ParseQuery (url.Encode roundTripMap) = (roundTripMap, None).
Proof. split; by vm_compute. Qed.

(** ** What every element contributes *)

Section Contributions.

Variable NewDocumentFromReader : string → Result html.Node.

Implicit Types m params : url.Values.

Lemma main_go_parse_get raw m k :
  url.get (main_go.parseURLAndAddQueryParameters raw m) k
  = url.get m k ++ queryValues raw k.
Proof.
  unfold main_go.parseURLAndAddQueryParameters, queryValues.
  destruct (url.Parse raw) as [u|e]; [apply get_merge_Add|by rewrite app_nil_r].
Qed.

Lemma main_go_visit_get m s k :
  url.get (main_go.visit m s) k = url.get m k ++ contributes_main k s.
Proof.
  unfold main_go.visit, contributes_main.
  destruct (goquery.Attr s "name") as [name|];
    destruct (goquery.Attr s "href") as [href|];
    destruct (goquery.Attr s "action") as [action|];
    rewrite ?main_go_parse_get, ?get_Add, ?app_nil_r, <-?app_assoc; done.
Qed.

Lemma main_go_fold_get nodes m k :
  url.get (foldl main_go.visit m nodes) k
  = url.get m k ++ (nodes ≫= contributes_main k).
Proof.
  revert m. induction nodes as [|s nodes IH]; intros m; simpl.
  - by rewrite app_nil_r.
  - by rewrite IH, main_go_visit_get, <-app_assoc.
Qed.

(** The first file's extractor, key by key: the contributions of the
    selected elements, in document order. *)
Lemma main_go_extract_get body k :
  url.get (main_go.extractQueryParamsFromHTML NewDocumentFromReader body) k
  = match NewDocumentFromReader body with
    | Ok doc => goquery.Find doc "a, form, input, select, textarea" ≫= contributes_main k
    | Err _ => []
    end.
Proof.
  unfold main_go.extractQueryParamsFromHTML.
  destruct (NewDocumentFromReader body) as [doc|e]; [|apply get_empty].
  by rewrite main_go_fold_get, get_empty.
Qed.

Lemma part_000_mergeQueryOf_get raw m m' k :
  part_000.mergeQueryOf raw m = Returned m' →
  url.get m' k = url.get m k ++ queryValues raw k.
Proof.
  unfold part_000.mergeQueryOf, queryValues.
  destruct (url.Parse raw) as [u|e]; [|done].
  intros [= <-]. apply get_mergeQueryParameters.
Qed.

Lemma part_000_visit_get m s m' k :
  part_000.visit m s = Returned m' →
  url.get m' k = url.get m k ++ contributes_part k s.
Proof.
  unfold part_000.visit, contributes_part.
  set (name := goquery.AttrOr s "name" EmptyString).
  set (value := goquery.AttrOr s "value" EmptyString).
  set (href := goquery.AttrOr s "href" EmptyString).
  set (src := goquery.AttrOr s "src" EmptyString).
  set (named := if negb (url.isEmpty name)
                then <[name := url.get m name ++ [part_000.fuzzIfBlank value]]> m
                else m).
  assert (url.get named k
          = url.get m k ++ (if negb (url.isEmpty name) && bool_decide (k = name)
                            then [part_000.fuzzIfBlank value] else [])) as Hnamed.
  { subst named. destruct (negb (url.isEmpty name)); simpl; [|by rewrite app_nil_r].
    fold (url.Add name (part_000.fuzzIfBlank value) m). rewrite get_Add.
    by destruct (decide (k = name)); [rewrite bool_decide_eq_true_2
                                     |rewrite bool_decide_eq_false_2]. }
  destruct (negb (url.isEmpty href)) eqn:Hh.
  - destruct (part_000.mergeQueryOf href named) as [linked|] eqn:Hl; [|done].
    pose proof (part_000_mergeQueryOf_get _ _ _ k Hl) as Hlinked.
    destruct (negb (url.isEmpty src)) eqn:Hs.
    + intros Hm. rewrite (part_000_mergeQueryOf_get _ _ _ k Hm), Hlinked, Hnamed.
      by rewrite <-!app_assoc.
    + intros [= <-]. by rewrite Hlinked, Hnamed, app_nil_r, <-!app_assoc.
  - destruct (negb (url.isEmpty src)) eqn:Hs.
    + intros Hm. rewrite (part_000_mergeQueryOf_get _ _ _ k Hm), Hnamed.
      by rewrite <-!app_assoc.
    + intros [= <-]. by rewrite Hnamed, !app_nil_r.
Qed.

Lemma part_000_Each_get nodes m m' k :
  part_000.Each nodes m = Returned m' →
  url.get m' k = url.get m k ++ (nodes ≫= contributes_part k).
Proof.
  revert m. induction nodes as [|s nodes IH]; intros m; simpl.
  - intros [= <-]. by rewrite app_nil_r.
  - destruct (part_000.visit m s) as [m1|] eqn:Hv; [|done].
    intros Hrest. rewrite (IH _ Hrest), (part_000_visit_get _ _ _ k Hv).
    by rewrite <-app_assoc.
Qed.

Lemma get_fmap (f : string → string) m k :
  url.get (fmap (M := gmap string) (fmap (M := list) f) m) k = f <$> url.get m k.
Proof.
  unfold url.get. rewrite !lookup_total_alt, lookup_fmap.
  by destruct (m !! k).
Qed.

(** The second file's extractor, key by key, when it returns: the
    contributions of the selected elements in document order, each value
    through the closing loop. *)
Lemma part_000_extract_get body params k :
  part_000.extractQueryParamsFromHTML NewDocumentFromReader body = Returned params →
  url.get params k
  = part_000.fuzzIfBlank <$>
      match NewDocumentFromReader body with
      | Ok doc => goquery.Find doc "input, select, textarea, a" ≫= contributes_part k
      | Err _ => []
      end.
Proof.
  unfold part_000.extractQueryParamsFromHTML.
  destruct (NewDocumentFromReader body) as [doc|e].
  - destruct (part_000.Each _ _) as [raw|] eqn:He; [|done].
    intros [= <-]. rewrite get_fmap, (part_000_Each_get _ _ _ k He).
    by rewrite get_empty.
  - intros [= <-]. apply get_empty.
Qed.

(** In the first file an element with a name/value pair and an [href]
    whose query holds [x] under [key] gives both to the result, on every
    page.  Every merge appends: the values of a key are the values
    already there followed by the new ones, for [Add], for
    [parseURLAndAddQueryParameters] and for [mergeQueryParameters], and
    the result of the extractor is the concatenation of what the
    selected elements contribute. *)
Lemma main_go_sources_are_appended body doc s name href u key x :
  NewDocumentFromReader body = Ok doc →
  s ∈ goquery.Find doc "a, form, input, select, textarea" →
  goquery.Attr s "name" = Some name →
  goquery.Attr s "href" = Some href →
  url.Parse href = Ok u →
  x ∈ url.get (url.Query u) key →
  (goquery.AttrOr s "value" "FUZZ"
     ∈ url.get (main_go.extractQueryParamsFromHTML NewDocumentFromReader body) name
   ∧ x ∈ url.get (main_go.extractQueryParamsFromHTML NewDocumentFromReader body) key)
  ∧ (∀ k value m k',
       url.get (url.Add k value m) k'
       = url.get m k' ++ (if decide (k' = k) then [value] else []))
  ∧ (∀ raw m k,
       url.get (main_go.parseURLAndAddQueryParameters raw m) k
       = url.get m k ++ queryValues raw k)
  ∧ (∀ params1 params2 k,
       url.get (part_000.mergeQueryParameters params1 params2) k
       = url.get params1 k ++ url.get params2 k)
  ∧ (∀ k, url.get (main_go.extractQueryParamsFromHTML NewDocumentFromReader body) k
          = goquery.Find doc "a, form, input, select, textarea" ≫= contributes_main k).
Proof.
  intros Hdoc Hs Hname Hhref Hu Hx.
  assert (∀ k, url.get (main_go.extractQueryParamsFromHTML NewDocumentFromReader body) k
               = goquery.Find doc "a, form, input, select, textarea" ≫= contributes_main k)
    as Hmain.
  { intros k. by rewrite main_go_extract_get, Hdoc. }
  split; [|split; [|split; [|split]]].
  - rewrite !Hmain. split; apply list_elem_of_bind; exists s; (split; [|done]);
      unfold contributes_main; rewrite Hname, Hhref.
    + rewrite decide_True by done. apply elem_of_app. left. by apply list_elem_of_singleton.
    + unfold queryValues. rewrite Hu.
      apply elem_of_app. right. apply elem_of_app. by left.
  - apply get_Add.
  - apply main_go_parse_get.
  - apply get_mergeQueryParameters.
  - done.
Qed.

(** In the second file the same holds of a selected element with
    non-empty name and [href] whenever the extractor returns, the values
    seen after its closing loop. *)
Lemma part_000_sources_are_appended body doc s name href u key x params :
  NewDocumentFromReader body = Ok doc →
  s ∈ goquery.Find doc "input, select, textarea, a" →
  goquery.Attr s "name" = Some name →
  goquery.Attr s "href" = Some href →
  name ≠ EmptyString → href ≠ EmptyString →
  url.Parse href = Ok u →
  x ∈ url.get (url.Query u) key →
  part_000.extractQueryParamsFromHTML NewDocumentFromReader body = Returned params →
  part_000.fuzzIfBlank (goquery.AttrOr s "value" EmptyString) ∈ url.get params name
  ∧ part_000.fuzzIfBlank x ∈ url.get params key.
Proof.
  intros Hdoc Hsel Hname Hhref Hn Hh Hu Hx Hp.
  rewrite !(part_000_extract_get _ _ _ Hp), Hdoc.
  assert (goquery.AttrOr s "name" EmptyString = name) as Hn'
    by (unfold goquery.AttrOr; by rewrite Hname).
  assert (goquery.AttrOr s "href" EmptyString = href) as Hh'
    by (unfold goquery.AttrOr; by rewrite Hhref).
  apply isEmpty_false in Hn, Hh.
  split; apply list_elem_of_fmap.
  - exists (part_000.fuzzIfBlank (goquery.AttrOr s "value" EmptyString)).
    split; [by rewrite fuzzIfBlank_idemp|].
    apply list_elem_of_bind. exists s. split; [|done].
    unfold contributes_part. rewrite Hn', Hn. simpl.
    rewrite bool_decide_eq_true_2 by done.
    apply elem_of_app. left. by apply list_elem_of_singleton.
  - exists x. split; [done|].
    apply list_elem_of_bind. exists s. split; [|done].
    unfold contributes_part. rewrite Hh', Hh. simpl.
    unfold queryValues. rewrite Hu.
    apply elem_of_app. right. apply elem_of_app. by left.
Qed.

End Contributions.

(** ** Rewriting the URL *)

Section Rewriting.

Variable NewDocumentFromReader : string → Result html.Node.
Variable Do : http.Client → http.Request → Result http.Response.

Lemma file_print format args w : file (print format args w) = file w.
Proof. done. Qed.

Lemma file_printParameters queryParameters w :
  file (printParameters queryParameters w) = file w.
Proof.
  unfold printParameters. generalize (map_to_list queryParameters). intros l.
  revert w. induction l as [|kv l IH]; intros w; simpl; [done|].
  by rewrite IH.
Qed.

(** The text of the rewritten URL: what stood before the query and the
    fragment are those of the parsed URL, the query is the new one. *)
Lemma URL_String_withRawQuery u q :
  url.URL_String (url.withRawQuery u q)
  = url.beforeQuery u
    +:+ (if url.ForceQuery u || negb (url.isEmpty q) then "?" +:+ q else EmptyString)
    +:+ url.fragmentPart u.
Proof. by destruct u. Qed.

(** C9: after [parsedURL.RawQuery = queryParameters.Encode()] the query
    of the URL is the encoding of the map, whatever query the URL had,
    and scheme, host, path and fragment (and every other field) are those
    of the parsed URL; the text written is the text of that URL, in both
    files, when the URL was fetched, the page gave the map and the file
    can be written. *)
Theorem C9_rewrite_replaces_query_only urlStr parsedURL queryParameters :
  url.Parse urlStr = Ok parsedURL →
  queryParameters ≠ ∅ →
  let rewritten := main_go.rewrite parsedURL queryParameters in
  url.RawQuery rewritten = url.Encode queryParameters
  ∧ url.Scheme rewritten = url.Scheme parsedURL
  ∧ url.Host rewritten = url.Host parsedURL
  ∧ url.Path rewritten = url.Path parsedURL
  ∧ url.Fragment rewritten = url.Fragment parsedURL
  ∧ (url.Opaque rewritten = url.Opaque parsedURL
     ∧ url.User rewritten = url.User parsedURL
     ∧ url.RawPath rewritten = url.RawPath parsedURL
     ∧ url.RawFragment rewritten = url.RawFragment parsedURL
     ∧ url.OmitHost rewritten = url.OmitHost parsedURL
     ∧ url.ForceQuery rewritten = url.ForceQuery parsedURL)
  ∧ url.URL_String rewritten
    = url.beforeQuery parsedURL
      +:+ (if url.ForceQuery parsedURL || negb (url.isEmpty (url.Encode queryParameters))
           then "?" +:+ url.Encode queryParameters else EmptyString)
      +:+ url.fragmentPart parsedURL
  ∧ ∀ cfg w client req resp body,
      main_go.prepare cfg urlStr = Ok (client, req) →
      Do client req = Ok resp →
      http.Body resp = Ok body →
      failure (file w) = None →
      (main_go.extractQueryParamsFromHTML NewDocumentFromReader body = queryParameters →
       ∃ w', main_go.processURL NewDocumentFromReader Do cfg urlStr w = (w', None)
             ∧ written (file w')
               = written (file w) ++ [url.URL_String rewritten +:+ main_go.newline])
      ∧ (part_000.extractQueryParamsFromHTML NewDocumentFromReader body
           = Returned queryParameters →
         ∃ w', part_000.extractParamsFromURL NewDocumentFromReader Do cfg urlStr w
               = Returned w'
               ∧ written (file w')
                 = written (file w) ++ [url.URL_String rewritten +:+ part_000.newline]).
Proof.
  intros Hparse Hne rewritten.
  assert (Nat.ltb 0 (size queryParameters) = true) as Hsize.
  { destruct (Nat.ltb 0 (size queryParameters)) eqn:Hs; [done|].
    by apply size_positive in Hs. }
  do 5 (split; [done|]). split; [by repeat split|].
  split; [apply URL_String_withRawQuery|].
  intros cfg w client req resp body Hprep HDo Hbody Hfile. split.
  - intros Hextract. unfold main_go.processURL.
    rewrite Hprep, HDo, Hbody, Hextract, Hsize, Hparse. simpl.
    unfold WriteString. simpl. rewrite Hfile. simpl.
    eexists. split; [done|].
    destruct (verbose cfg); [|done].
    by rewrite file_printParameters.
  - intros Hextract.
    unfold part_000.extractParamsFromURL, part_000.createRequestWithCustomHeaders.
    apply prepare_agree in Hprep.
    rewrite Hprep, HDo, Hbody, Hextract, Hsize, Hparse. simpl.
    unfold WriteString. simpl. rewrite Hfile. simpl.
    eexists. split; [done|].
    destruct (verbose cfg); [|done].
    by rewrite file_printParameters.
Qed.

End Rewriting.

(** ** The claims at concrete inputs *)

Lemma C4_header_without_colon_witness :
  "X-Foo" ∈ customHeaders twoHeaders
  ∧ strings.Contains "X-Foo" ":" = false
  ∧ ∃ e, main_go.processURL (pageParser plainPage plainDoc) (serve plainPage)
                            twoHeaders "http://h/page" emptyWorld
         = (emptyWorld, Some e)
         ∧ e = fmt_Errorf "invalid header format: %s" [opString "X-Foo"].
Proof.
  assert ("X-Foo" ∈ customHeaders twoHeaders) as Hin
    by (apply list_elem_of_further, list_elem_of_here).
  split; [exact Hin|]. split; [reflexivity|].
  destruct (C4_header_without_colon (pageParser plainPage plainDoc) (serve plainPage)
              twoHeaders "http://h/page" emptyWorld "X-Foo" Hin eq_refl)
    as (bad & Hbad & _ & (e & Hrun & Hfmt) & _).
  exists e. split; [exact Hrun|].
  injection Hbad as <-. apply Hfmt; [by left|reflexivity].
Defined.

Lemma C5_no_parameters_no_output_witness :
  url.Parse ":" = Err (url_Error "parse" ":" (errors_New "missing protocol scheme"))
  ∧ ∃ req,
      main_go.processURL (pageParser plainPage plainDoc) (serve plainPage)
                         withBase ":" emptyWorld
      = (send req emptyWorld, None)
      ∧ part_000.extractParamsFromURL (pageParser plainPage plainDoc) (serve plainPage)
                                      withBase ":" emptyWorld
        = Returned (send req emptyWorld)
      ∧ file (send req emptyWorld) = file emptyWorld.
Proof.
  split; [reflexivity|]. eexists.
  edestruct (C5_no_parameters_no_output (pageParser plainPage plainDoc) (serve plainPage)
               withBase ":" emptyWorld) as (Hmain & Hpart & Hfile & _).
  - vm_compute. reflexivity.
  - reflexivity.
  - reflexivity.
  - split; [apply Hmain; vm_compute; reflexivity|].
    split; [apply Hpart; vm_compute; reflexivity|exact Hfile].
Defined.

(** C6 (defect of the second file): an element with a name/value pair
    and an [href] with a query does not always give both to the result of
    the second file.  On the page
    [<a name="id" value="7" href="/item?id=5">item</a><a href=":">next</a>]
    the extractor has merged [7] and [5] under [id] when it reaches the
    second link, panics there and returns nothing; on the page
    [<form name="id" value="7" href="/item?id=5"></form>] it selects no
    element and returns the empty map.  The first file returns
    [id -> ["7"; "5"]] on both pages, and so does the second file on the
    first element alone. *)
Theorem C6_part_000_loses_sources :
  linkElement ∈ goquery.Find linkThenBadDoc "input, select, textarea, a"
  ∧ goquery.Attr linkElement "name" = Some "id"
  ∧ goquery.Attr linkElement "value" = Some "7"
  ∧ goquery.Attr linkElement "href" = Some "/item?id=5"
  ∧ queryValues "/item?id=5" "id" = ["5"]
  ∧ part_000.extractQueryParamsFromHTML (pageParser linkPage linkDoc) linkPage
    = Returned {["id" := ["7"; "5"]]}
  ∧ part_000.extractQueryParamsFromHTML (pageParser linkThenBadPage linkThenBadDoc)
                                        linkThenBadPage
    = Panicked part_000.nilDereference
  ∧ part_000.extractParamsFromURL (pageParser linkThenBadPage linkThenBadDoc)
                                  (serve linkThenBadPage)
                                  defaults "http://h/page" emptyWorld
    = Panicked part_000.nilDereference
  ∧ main_go.extractQueryParamsFromHTML (pageParser linkThenBadPage linkThenBadDoc)
                                       linkThenBadPage
    = {["id" := ["7"; "5"]]}
  ∧ goquery.Find formLinkDoc "input, select, textarea, a" = []
  ∧ part_000.extractQueryParamsFromHTML (pageParser formLinkPage formLinkDoc)
                                        formLinkPage
    = Returned ∅
  ∧ main_go.extractQueryParamsFromHTML (pageParser formLinkPage formLinkDoc)
                                       formLinkPage
    = {["id" := ["7"; "5"]]}.
Proof.
  split; [apply list_elem_of_here|].
  split_and!; by vm_compute.
Qed.

Lemma C8_parse_failure_is_empty_witness :
  pageParser formPage formDoc plainPage = Err (errors_New "unexpected EOF")
  ∧ main_go.extractQueryParamsFromHTML (pageParser formPage formDoc) plainPage = ∅
  ∧ part_000.extractQueryParamsFromHTML (pageParser formPage formDoc) plainPage
    = Returned ∅
  ∧ ∃ req,
      main_go.processURL (pageParser formPage formDoc) (serve plainPage)
                         defaults "http://h/page" emptyWorld
      = (send req emptyWorld, None).
Proof.
  split; [reflexivity|].
  destruct (C8_parse_failure_is_empty (pageParser formPage formDoc) (serve plainPage)
              plainPage (errors_New "unexpected EOF") eq_refl)
    as (Hmain & Hpart & Hrun).
  split; [exact Hmain|]. split; [exact Hpart|].
  eexists. eapply Hrun.
  - vm_compute. reflexivity.
  - reflexivity.
  - reflexivity.
Defined.

Lemma C9_rewrite_replaces_query_only_witness :
  url.Parse "http://h/page?old=1#top" = Ok oldQueryURL
  ∧ formMap ≠ ∅
  ∧ url.RawQuery (main_go.rewrite oldQueryURL formMap) = url.Encode formMap
  ∧ url.Scheme (main_go.rewrite oldQueryURL formMap) = "http"
  ∧ url.Host (main_go.rewrite oldQueryURL formMap) = "h"
  ∧ url.Path (main_go.rewrite oldQueryURL formMap) = "/page"
  ∧ url.Fragment (main_go.rewrite oldQueryURL formMap) = "top"
  ∧ url.URL_String (main_go.rewrite oldQueryURL formMap) = "http://h/page?q=FUZZ&x=1#top".
Proof.
  assert (formMap ≠ ∅) as Hne.
  { intros H. apply (f_equal size) in H. vm_compute in H. discriminate H. }
  split; [reflexivity|]. split; [exact Hne|].
  destruct (C9_rewrite_replaces_query_only (pageParser formPage formDoc) (serve formPage)
              "http://h/page?old=1#top" oldQueryURL formMap eq_refl Hne)
    as (Hq & Hs & Hh & Hp & Hf & _ & Htext & _).
  split; [exact Hq|]. split; [exact Hs|]. split; [exact Hh|].
  split; [exact Hp|]. split; [exact Hf|].
  rewrite Htext. vm_compute. reflexivity.
Defined.

(** ** The worker pool *)

Section PoolFacts.

(** The body of the loop is any function that returns and appends to the
    output file the lines [out u] of its URL, on a file whose writes
    behave as [status] says. *)
Variable work : string → World → Outcome World.
Variable out : string → list string.
Variable status : option error.

Hypothesis work_appends :
  ∀ u w, failure (file w) = status →
    ∃ w', work u w = Returned w'
          ∧ failure (file w') = status
          ∧ written (file w') = written (file w) ++ out u.

Lemma holds_insert (ws : list Worker) (i : nat) s s' :
  ws !! i = Some s →
  (<[i := s']> ws) ≫= holds ≡ₚ holds s' ++ (take i ws ++ drop (S i) ws) ≫= holds.
Proof.
  intros Hi. rewrite insert_take_drop by (by eapply lookup_lt_Some).
  rewrite !bind_app, bind_cons. apply Permutation_app_swap_app.
Qed.

Lemma holds_lookup (ws : list Worker) (i : nat) s :
  ws !! i = Some s →
  ws ≫= holds ≡ₚ holds s ++ (take i ws ++ drop (S i) ws) ≫= holds.
Proof.
  intros Hi. rewrite <-(take_drop_middle ws i s Hi) at 1.
  rewrite !bind_app, bind_cons. apply Permutation_app_swap_app.
Qed.

Lemma holds_swap (ws : list Worker) (i : nat) s s' :
  ws !! i = Some s → holds s ++ (<[i := s']> ws) ≫= holds ≡ₚ holds s' ++ ws ≫= holds.
Proof.
  intros Hi. rewrite (holds_insert _ _ _ s' Hi), (holds_lookup _ _ _ Hi).
  by rewrite Permutation_app_swap_app.
Qed.

Lemma Finished_insert (ws : list Worker) (i : nat) s :
  s ≠ Finished → Finished ∈ <[i := s]> ws → Finished ∈ ws.
Proof.
  intros Hs (j & Hj)%list_elem_of_lookup.
  apply list_lookup_insert_Some in Hj as [(_ & Heq & _)|(_ & Hj)]; [congruence|].
  apply list_elem_of_lookup. eauto.
Qed.

Lemma Balanced_fire n total a p p' :
  Balanced out status n total p → fire work a p = Some p' → Balanced out status n total p'.
Proof.
  intros (Hcrash & Hcap & Hlen & Hbuf & Hfile & Hclosed & Hfin & Hperm).
  unfold fire. rewrite Hcrash. unfold Balanced, output, pending in *.
  destruct a as [| |i|i|i].
  - destruct (input p) as [|u rest] eqn:Hin; [done|].
    destruct (Nat.ltb (length (urls p)) (capacity p)) eqn:Hroom; [|done].
    intros [= <-]. simpl. apply Nat.ltb_lt in Hroom.
    assert (closed p = false) as Hopen.
    { destruct (closed p); [|done]. by specialize (Hclosed eq_refl). }
    split_and!; try done.
    + rewrite length_app. simpl. lia.
    + by rewrite Hopen.
    + intros Hf. destruct (Hfin Hf) as [? _]. congruence.
    + by rewrite <-Hperm, <-!app_assoc.
  - destruct (input p) as [|u rest] eqn:Hin; [|done].
    destruct (closed p) eqn:Hopen; [done|].
    intros [= <-]. simpl. split_and!; try done.
    intros Hf. by destruct (Hfin Hf).
  - destruct (workers p !! i) as [[| |]|] eqn:Hi; try done.
    destruct (urls p) as [|u rest] eqn:Hurls; [done|].
    intros [= <-]. simpl. simpl in Hbuf.
    split_and!; try done.
    + by rewrite length_insert.
    + lia.
    + intros Hf%Finished_insert; [|done]. by destruct (Hfin Hf).
    + rewrite <-Hperm. apply Permutation_app_head, bind_Permutation.
      pose proof (holds_swap _ i Idle (Holding u) Hi) as Hs. simpl in Hs.
      rewrite Hs. simpl. by rewrite Permutation_middle.
  - destruct (workers p !! i) as [[|u|]|] eqn:Hi; try done.
    destruct (work_appends u (world p) Hfile) as (w' & -> & Hfile' & Hout).
    intros [= <-]. simpl. split_and!; try done.
    + by rewrite length_insert.
    + intros Hf%Finished_insert; [|done]. by destruct (Hfin Hf).
    + rewrite <-Hperm, Hout, <-!app_assoc. apply Permutation_app_head.
      rewrite <-(bind_singleton out u), <-bind_app. apply bind_Permutation.
      pose proof (holds_swap _ i (Holding u) Idle Hi) as Hs. simpl in Hs.
      by rewrite <-Hs.
  - destruct (workers p !! i) as [[| |]|] eqn:Hi; try done.
    destruct (urls p) as [|u rest] eqn:Hurls; [|done].
    destruct (closed p) eqn:Hopen; [|done].
    intros [= <-]. simpl. split_and!; try done.
    + by rewrite length_insert.
    + rewrite <-Hperm. apply Permutation_app_head, bind_Permutation.
      pose proof (holds_swap _ i Idle Finished Hi) as Hs. simpl in Hs.
      by rewrite Hs.
Qed.

Lemma Balanced_run n total schedule p q :
  Balanced out status n total p → run work schedule p = Some q → Balanced out status n total q.
Proof.
  revert p. induction schedule as [|a rest IH]; intros p Hp; simpl.
  - by intros [= <-].
  - destruct (fire work a p) as [p'|] eqn:Hfire; [|done].
    apply IH. by eapply Balanced_fire.
Qed.

Lemma holds_Idle n : replicate n Idle ≫= holds = [].
Proof. induction n as [|n IH]; [done|]. by rewrite replicate_S, bind_cons, IH. Qed.

Lemma Balanced_start n lines w :
  failure (file w) = status →
  Balanced out status n (written (file w) ++ (lines ≫= out)) (start n lines w).
Proof.
  intros Hw. unfold Balanced, output, pending, start.
  cbn [crashed capacity workers urls input closed world].
  rewrite holds_Idle. split_and!; try done.
  - apply length_replicate.
  - simpl. lia.
  - by intros (i & [? _]%lookup_replicate)%list_elem_of_lookup.
Qed.

Lemma Balanced_Ended n total p :
  Balanced out status n total p → Ended p → output p ≡ₚ total.
Proof.
  intros (Hcrash & Hcap & Hlen & Hbuf & Hfile & Hclosed & Hfin & Hperm) [Hdead|Hend].
  - rewrite Hcrash in Hdead. by destruct Hdead.
  - destruct Hend as (Hin & Hcl & Hall).
    assert (workers p ≫= holds = []) as Hheld.
    { clear -Hall. induction Hall as [|s ws -> _ IH]; [done|].
      by rewrite bind_cons, IH. }
    assert (urls p = []) as Hurls.
    { destruct (workers p) as [|s ws] eqn:Hws.
      - simpl in Hlen. subst n. destruct (urls p); [done|]. simpl in Hbuf. lia.
      - apply Hfin. inversion Hall; subst. apply list_elem_of_here. }
    unfold pending in Hperm. rewrite Hheld, Hurls, Hin in Hperm.
    simpl in Hperm. by rewrite app_nil_r in Hperm.
Qed.

(** Over any schedule that ends, the output file holds the lines of all
    URLs, whatever the number of goroutines. *)
Lemma pool_output n lines w p :
  failure (file w) = status →
  Reaches work (start n lines w) p → Ended p →
  output p ≡ₚ written (file w) ++ (lines ≫= out).
Proof.
  intros Hw [schedule Hrun] Hend.
  eapply Balanced_Ended; [|done].
  eapply Balanced_run; [|done]. by apply Balanced_start.
Qed.

End PoolFacts.

(** ** The pool of [main.go] *)

Section MainPool.

Variable NewDocumentFromReader : string → Result html.Node.
Variable Do : http.Client → http.Request → Result http.Response.

(** A call of the body of the loop returns, and appends to the output
    file the line of its URL, if any. *)
Lemma main_go_worker_appends cfg status u w :
  failure (file w) = status →
  ∃ w', main_go.worker NewDocumentFromReader Do cfg u w = Returned w'
        ∧ failure (file w') = status
        ∧ written (file w')
          = written (file w) ++ emitted NewDocumentFromReader Do cfg status u.
Proof.
  intros Hw. unfold main_go.worker, main_go.processURL, emitted, lineOf.
  destruct (main_go.prepare cfg u) as [[client req]|e].
  - destruct (Do client req) as [resp|e].
    + destruct (http.Body resp) as [body|e].
      * destruct (Nat.ltb 0 (size _)); simpl.
        -- destruct (url.Parse u) as [parsedURL|e].
           ++ unfold WriteString. simpl. rewrite Hw.
              destruct status as [e|]; simpl.
              ** destruct (quiet cfg); eexists; split_and!; try done;
                   by rewrite app_nil_r.
              ** destruct (quiet cfg), (verbose cfg); eexists; split_and!; try done;
                   by rewrite file_printParameters.
           ++ destruct (quiet cfg), status; eexists; split_and!; try done;
                by rewrite app_nil_r.
        -- destruct status; eexists; split_and!; try done; by rewrite app_nil_r.
      * destruct (quiet cfg), status; eexists; split_and!; try done;
          by rewrite app_nil_r.
    + destruct (quiet cfg), status; eexists; split_and!; try done;
        by rewrite app_nil_r.
  - destruct (quiet cfg), status; eexists; split_and!; try done;
      by rewrite app_nil_r.
Qed.

(** Whatever the schedule and the number of goroutines, a run of
    [main.go] that ends has written the lines of all its URLs. *)
Lemma main_go_pool_output flags lines w p :
  Reaches (main_go.worker NewDocumentFromReader Do (settings flags))
          (main_go.main flags lines w) p →
  Ended p →
  output p
  ≡ₚ written (file w)
     ++ (lines ≫= emitted NewDocumentFromReader Do (settings flags) (failure (file w))).
Proof.
  intros Hrun Hend. unfold main_go.main in Hrun.
  eapply (pool_output _ _ (failure (file w))); [|done|done|done].
  intros u w' Hw'. by apply main_go_worker_appends.
Qed.

(** The number of goroutines does not change the lines [main.go] writes:
    two runs on the same lines and settings, with any two values of
    [-c], end with the same lines in some order. *)
Lemma main_go_pool_concurrency_independent flags flags' lines w p q :
  settings flags = settings flags' →
  Reaches (main_go.worker NewDocumentFromReader Do (settings flags))
          (main_go.main flags lines w) p →
  Ended p →
  Reaches (main_go.worker NewDocumentFromReader Do (settings flags'))
          (main_go.main flags' lines w) q →
  Ended q →
  output p ≡ₚ output q.
Proof.
  intros Hset Hp Hpe Hq Hqe.
  rewrite (main_go_pool_output _ _ _ _ Hp Hpe), (main_go_pool_output _ _ _ _ Hq Hqe).
  by rewrite Hset.
Qed.

End MainPool.

(** ** A schedule that ends *)

Section Sequential.

Variable work : string → World → Outcome World.
Variable out : string → list string.
Variable status : option error.

Hypothesis work_appends :
  ∀ u w, failure (file w) = status →
    ∃ w', work u w = Returned w'
          ∧ failure (file w') = status
          ∧ written (file w') = written (file w) ++ out u.

Lemma run_app schedule schedule' p :
  run work (schedule ++ schedule') p
  = run work schedule p ≫= run work schedule'.
Proof.
  revert p. induction schedule as [|a rest IH]; intros p; simpl; [done|].
  destruct (fire work a p); [apply IH|done].
Qed.

(** One line after the other through the first goroutine. *)
Lemma run_lines n lines w :
  0 < n → failure (file w) = status →
  ∃ w', run work (lines ≫= fun _ => [Send; Receive 0; Work 0])
            (mkPool lines [] n false (replicate n Idle) w None)
        = Some (mkPool [] [] n false (replicate n Idle) w' None)
        ∧ failure (file w') = status.
Proof.
  intros Hn. revert w. induction lines as [|u lines IH]; intros w Hw.
  - by exists w.
  - destruct (work_appends u w Hw) as (w1 & Hwork & Hw1 & _).
    destruct (IH w1 Hw1) as (w' & Hrun & Hw').
    exists w'. split; [|done].
    rewrite bind_cons, run_app.
    destruct n as [|n]; [lia|].
    unfold run at 1, fire. cbn. rewrite Hwork. cbn. exact Hrun.
Qed.

(** The goroutines leave one after the other. *)
Lemma run_leaves gone m w :
  Forall (fun s => s = Finished) gone →
  run work (Leave <$> seq (length gone) m)
      (mkPool [] [] (length gone + m) true (gone ++ replicate m Idle) w None)
  = Some (mkPool [] [] (length gone + m) true (gone ++ replicate m Finished) w None).
Proof.
  revert gone. induction m as [|m IH]; intros gone Hgone; [done|].
  rewrite replicate_S. cbn [seq fmap list_fmap run].
  unfold fire. cbn [crashed workers urls closed input capacity world].
  rewrite lookup_app_r by lia. rewrite Nat.sub_diag. cbn [lookup list_lookup].
  rewrite insert_app_r_alt by lia. rewrite Nat.sub_diag. cbn [insert list_insert].
  specialize (IH (gone ++ [Finished])).
  rewrite length_app in IH. cbn [length] in IH.
  replace (length gone + 1 + m) with (length gone + S m) in IH by lia.
  replace (length gone + 1) with (S (length gone)) in IH by lia.
  rewrite <-!app_assoc in IH. cbn [app] in IH.
  rewrite (replicate_S m Finished). apply IH.
  apply Forall_app. split; [done|]. by constructor.
Qed.

(** With at least one goroutine the sequential schedule runs to the end:
    a run of the pool does end. *)
Lemma oneByOne_ends n lines w :
  0 < n → failure (file w) = status →
  ∃ p, run work (oneByOne n lines) (start n lines w) = Some p ∧ Ended p.
Proof.
  intros Hn Hw. destruct (run_lines n lines w Hn Hw) as (w' & Hrun & Hw').
  exists (mkPool [] [] n true (replicate n Finished) w' None).
  split.
  - unfold oneByOne, start. rewrite run_app, Hrun. simpl.
    apply (run_leaves [] n w'). constructor.
  - right. split_and!; try done. simpl.
    clear. induction n; by constructor.
Qed.

End Sequential.

(** A run of [main.go] ends for every number of goroutines from one on. *)
Lemma main_go_pool_ends NewDocumentFromReader Do flags lines w :
  0 < concurrencyFlag flags →
  ∃ p, Reaches (main_go.worker NewDocumentFromReader Do (settings flags))
               (main_go.main flags lines w) p
       ∧ Ended p.
Proof.
  intros Hn.
  destruct (oneByOne_ends
              (main_go.worker NewDocumentFromReader Do (settings flags))
              (emitted NewDocumentFromReader Do (settings flags) (failure (file w)))
              (failure (file w))
              (fun u w' Hw' => main_go_worker_appends NewDocumentFromReader Do
                                 (settings flags) (failure (file w)) u w' Hw')
              (concurrencyFlag flags) lines w Hn eq_refl)
    as (p & Hrun & Hend).
  exists p. split; [|done]. by eexists.
Qed.

(** The first file on the two pages: every run that ends has written
    the lines of both URLs. *)
Lemma main_go_two_pages concurrency p :
  Reaches (main_go.worker twoPages twoHosts defaults)
          (main_go.main (mkFlags concurrency defaults) goodThenBad emptyWorld) p →
  Ended p →
  output p ≡ₚ ["http://h/good?q=FUZZ&x=1" +:+ main_go.newline;
               "http://h/bad?q=FUZZ" +:+ main_go.newline].
Proof.
  intros Hrun Hend.
  by rewrite (main_go_pool_output twoPages twoHosts _ _ _ _ Hrun Hend).
Qed.

(** C10 (defect of the second file): with the lines [http://h/good] and
    [http://h/bad], the second page holding a link that is not a URL, two
    runs of the second file end with different output files.  Its pool
    has ten goroutines whatever [-c] says, and the goroutine that
    processes the second page panics, which ends the process: what the
    other goroutines have written by then depends on the schedule.  When
    the second line is processed first nothing is written; when the
    lines are processed in order the line of the first URL is written. *)
Theorem C10_part_000_output_depends_on_schedule :
  ∃ p q,
    run (part_000.extractParamsFromURL twoPages twoHosts defaults) racing
        (part_000.main (mkFlags 10 defaults) goodThenBad emptyWorld) = Some p
    ∧ run (part_000.extractParamsFromURL twoPages twoHosts defaults) inOrder
          (part_000.main (mkFlags 1 defaults) goodThenBad emptyWorld) = Some q
    ∧ Ended p ∧ Ended q
    ∧ length (workers p) = 10 ∧ length (workers q) = 10
    ∧ crashed p = Some part_000.nilDereference
    ∧ crashed q = Some part_000.nilDereference
    ∧ output p = []
    ∧ output q = ["http://h/good?q=FUZZ" +:+ part_000.newline]
    ∧ ¬ output p ≡ₚ output q.
Proof.
  eexists. eexists.
  split; [vm_compute; reflexivity|].
  split; [vm_compute; reflexivity|].
  split; [by left|]. split; [by left|].
  split; [reflexivity|]. split; [reflexivity|].
  split; [reflexivity|]. split; [reflexivity|].
  split; [reflexivity|]. split; [reflexivity|].
  intros Hperm. apply Permutation_length in Hperm. discriminate Hperm.
Qed.

(** * Further properties *)

(** ** Maps without empty lists *)

Section NoEmptyLists.

Implicit Types m params : url.Values.

Lemma NoEmptyList_empty : NoEmptyList ∅.
Proof. intros key. by rewrite lookup_empty. Qed.

Lemma NoEmptyList_Add key value m : NoEmptyList m → NoEmptyList (url.Add key value m).
Proof.
  intros Hm k. unfold url.Add. rewrite lookup_insert. case_decide as Hk; [|apply Hm].
  intros [= Hnil]. by destruct (url.get m key).
Qed.

Lemma NoEmptyList_Add_all key values m :
  NoEmptyList m →
  NoEmptyList (foldl (fun params value => url.Add key value params) m values).
Proof.
  revert m. induction values as [|v values IH]; intros m Hm; [done|].
  simpl. by apply IH, NoEmptyList_Add.
Qed.

Lemma NoEmptyList_parseSegment m err key :
  NoEmptyList m → NoEmptyList (url.parseSegment m err key).1.
Proof.
  intros Hm. unfold url.parseSegment.
  destruct (strings.Contains key ";"); [done|].
  destruct (String.eqb key EmptyString); [done|].
  destruct (strings.Cut key "=") as [[k v] f].
  destruct (url.QueryUnescape k); [|done].
  destruct (url.QueryUnescape v); [|done].
  by apply NoEmptyList_Add.
Qed.

Lemma NoEmptyList_parseQuery fuel m err query :
  NoEmptyList m → NoEmptyList (url.parseQuery fuel m err query).1.
Proof.
  revert m err query. induction fuel as [|fuel IH]; intros m err query Hm; [done|].
  simpl. destruct (String.eqb query EmptyString); [done|].
  destruct (strings.Cut query "&") as [[key rest] f].
  pose proof (NoEmptyList_parseSegment m err key Hm) as Hseg.
  destruct (url.parseSegment m err key) as [m' err']. by apply IH.
Qed.

Lemma NoEmptyList_Query u : NoEmptyList (url.Query u).
Proof. apply NoEmptyList_parseQuery, NoEmptyList_empty. Qed.

Lemma NoEmptyList_main_parse raw m :
  NoEmptyList m → NoEmptyList (main_go.parseURLAndAddQueryParameters raw m).
Proof.
  intros Hm. unfold main_go.parseURLAndAddQueryParameters.
  destruct (url.Parse raw) as [u|e]; [|done].
  apply (map_fold_weak_ind (fun r (_ : url.Values) => NoEmptyList r)); [done|].
  intros key values src r _ Hr. by apply NoEmptyList_Add_all.
Qed.

Lemma NoEmptyList_main_visit m s : NoEmptyList m → NoEmptyList (main_go.visit m s).
Proof.
  intros Hm. unfold main_go.visit.
  destruct (goquery.Attr s "name"), (goquery.Attr s "href"), (goquery.Attr s "action");
    repeat first [apply NoEmptyList_main_parse | apply NoEmptyList_Add]; done.
Qed.

Lemma NoEmptyList_main_extract parser body :
  NoEmptyList (main_go.extractQueryParamsFromHTML parser body).
Proof.
  unfold main_go.extractQueryParamsFromHTML.
  destruct (parser body) as [doc|e]; [|apply NoEmptyList_empty].
  generalize (goquery.Find doc "a, form, input, select, textarea").
  intros nodes. generalize NoEmptyList_empty. generalize (∅ : url.Values).
  induction nodes as [|s nodes IH]; intros m Hm; [done|].
  simpl. by apply IH, NoEmptyList_main_visit.
Qed.

Lemma NoEmptyList_merge params1 params2 :
  NoEmptyList params1 → NoEmptyList params2 →
  NoEmptyList (part_000.mergeQueryParameters params1 params2).
Proof.
  intros H1. unfold part_000.mergeQueryParameters.
  apply (map_fold_weak_ind (fun r (src : url.Values) => NoEmptyList src → NoEmptyList r)).
  - done.
  - intros key values src r Hnone IH Hsrc k.
    rewrite lookup_insert. case_decide as Hk.
    + intros [= Hnil]. apply app_eq_nil in Hnil as [_ ->].
      apply (Hsrc key). by rewrite lookup_insert_eq.
    + apply IH. intros k' Hk'. apply (Hsrc k').
      rewrite lookup_insert_ne; [done|]. intros ->. congruence.
Qed.

Lemma NoEmptyList_part_visit m s m' :
  NoEmptyList m → part_000.visit m s = Returned m' → NoEmptyList m'.
Proof.
  intros Hm. unfold part_000.visit, part_000.mergeQueryOf.
  set (named := if negb (url.isEmpty (goquery.AttrOr s "name" EmptyString)) then _ else m).
  assert (NoEmptyList named) as Hnamed.
  { subst named. destruct (negb _); [|done]. by apply (NoEmptyList_Add _ _ m). }
  destruct (negb (url.isEmpty (goquery.AttrOr s "href" EmptyString))).
  - destruct (url.Parse (goquery.AttrOr s "href" EmptyString)) as [u|e]; [|done].
    destruct (negb (url.isEmpty (goquery.AttrOr s "src" EmptyString))).
    + destruct (url.Parse (goquery.AttrOr s "src" EmptyString)) as [u'|e]; [|done].
      intros [= <-]. repeat apply NoEmptyList_merge; auto using NoEmptyList_Query.
    + intros [= <-]. apply NoEmptyList_merge; auto using NoEmptyList_Query.
  - destruct (negb (url.isEmpty (goquery.AttrOr s "src" EmptyString))).
    + destruct (url.Parse (goquery.AttrOr s "src" EmptyString)) as [u'|e]; [|done].
      intros [= <-]. apply NoEmptyList_merge; auto using NoEmptyList_Query.
    + by intros [= <-].
Qed.

Lemma NoEmptyList_part_Each nodes m m' :
  NoEmptyList m → part_000.Each nodes m = Returned m' → NoEmptyList m'.
Proof.
  revert m. induction nodes as [|s nodes IH]; intros m Hm; simpl.
  - by intros [= <-].
  - destruct (part_000.visit m s) as [m1|] eqn:Hv; [|done].
    apply IH. by eapply NoEmptyList_part_visit.
Qed.

Lemma NoEmptyList_part_extract parser body m :
  part_000.extractQueryParamsFromHTML parser body = Returned m → NoEmptyList m.
Proof.
  unfold part_000.extractQueryParamsFromHTML.
  destruct (parser body) as [doc|e].
  - destruct (part_000.Each _ _) as [raw|] eqn:He; [|done].
    intros [= <-] key. rewrite lookup_fmap.
    pose proof (NoEmptyList_part_Each _ _ _ NoEmptyList_empty He key) as Hraw.
    destruct (raw !! key) as [[|v vs]|]; done.
  - intros [= <-]. apply NoEmptyList_empty.
Qed.

Lemma lookup_entry m key : NoEmptyList m → m !! key = entry (url.get m key).
Proof.
  intros Hm. unfold url.get. rewrite lookup_total_alt.
  specialize (Hm key). by destruct (m !! key) as [[|v vs]|].
Qed.

End NoEmptyLists.

(** ** The extractors as maps *)

Section ExtractorMaps.

Variable NewDocumentFromReader : string → Result html.Node.

(** X1: the map returned by the extractor of main.go, entry by entry: a
    key is present exactly when some selected element contributes a value
    under it, and its values are then all the contributions in document
    order; no key holds an empty list. *)
Theorem X1_main_go_extract_entries body key :
  main_go.extractQueryParamsFromHTML NewDocumentFromReader body !! key
  = entry (match NewDocumentFromReader body with
           | Ok doc =>
               goquery.Find doc "a, form, input, select, textarea" ≫= contributes_main key
           | Err _ => []
           end).
Proof.
  rewrite lookup_entry by apply NoEmptyList_main_extract.
  by rewrite main_go_extract_get.
Qed.

(** X2: the same for the second file, when its extractor returns: the
    contributions of the elements it selects, each value through the
    trimming loop, and no key with an empty list. *)
Theorem X2_part_000_extract_entries body params key :
  part_000.extractQueryParamsFromHTML NewDocumentFromReader body = Returned params →
  params !! key
  = entry (part_000.fuzzIfBlank <$>
             match NewDocumentFromReader body with
             | Ok doc => goquery.Find doc "input, select, textarea, a" ≫= contributes_part key
             | Err _ => []
             end).
Proof.
  intros Hp. rewrite lookup_entry by (by eapply NoEmptyList_part_extract).
  by rewrite (part_000_extract_get _ _ _ key Hp).
Qed.

Lemma fuzzIfBlank_Trimmed value :
  strings.TrimSpace (part_000.fuzzIfBlank value) = part_000.fuzzIfBlank value.
Proof.
  unfold part_000.fuzzIfBlank. case_match; [reflexivity|apply TrimSpace_idemp].
Qed.

(** X3: every value the second file returns is already trimmed and not
    empty: trimming it again changes nothing. *)
Theorem X3_part_000_values_trimmed body params key values value :
  part_000.extractQueryParamsFromHTML NewDocumentFromReader body = Returned params →
  params !! key = Some values →
  value ∈ values →
  strings.TrimSpace value = value ∧ value ≠ EmptyString.
Proof.
  intros Hp Hkey Hin.
  assert (¬ Blank value) as Hnb
    by (eapply part_000_extract_Normalized; eauto).
  assert (strings.TrimSpace value = value) as Htrim.
  { unfold part_000.extractQueryParamsFromHTML in Hp.
    destruct (NewDocumentFromReader body) as [doc|e].
    - destruct (part_000.Each _ _) as [raw|]; [|done]. injection Hp as <-.
      rewrite lookup_fmap in Hkey. destruct (raw !! key) as [vs|]; [|done].
      injection Hkey as <-. apply list_elem_of_fmap in Hin as (v0 & -> & _).
      apply fuzzIfBlank_Trimmed.
    - injection Hp as <-. by rewrite lookup_empty in Hkey. }
  split; [done|]. intros ->. by apply Hnb.
Qed.

Lemma part_000_visit_cases m s :
  if trips s then part_000.visit m s = Panicked part_000.nilDereference
  else ∃ m', part_000.visit m s = Returned m'.
Proof.
  unfold trips, rejected, part_000.visit, part_000.mergeQueryOf.
  destruct (url.isEmpty (goquery.AttrOr s "href" EmptyString));
    destruct (url.isEmpty (goquery.AttrOr s "src" EmptyString)); simpl;
    try destruct (url.Parse (goquery.AttrOr s "href" EmptyString)); simpl;
    try destruct (url.Parse (goquery.AttrOr s "src" EmptyString)); simpl; eauto.
Qed.

Lemma part_000_Each_cases nodes m :
  if existsb trips nodes then part_000.Each nodes m = Panicked part_000.nilDereference
  else ∃ m', part_000.Each nodes m = Returned m'.
Proof.
  revert m. induction nodes as [|s nodes IH]; intros m; simpl; [eauto|].
  pose proof (part_000_visit_cases m s) as Hs.
  destruct (trips s); simpl.
  - by rewrite Hs.
  - destruct Hs as [m1 ->]. apply IH.
Qed.

(** X4: the extractor of the second file panics exactly when the parser
    succeeds and some selected element carries a non-empty [href] or
    [src] that [url.Parse] rejects; on every other body it returns. *)
Theorem X4_part_000_panics_exactly body :
  (∀ reason,
     part_000.extractQueryParamsFromHTML NewDocumentFromReader body = Panicked reason
     ↔ reason = part_000.nilDereference
       ∧ ∃ doc, NewDocumentFromReader body = Ok doc
                ∧ existsb trips (goquery.Find doc "input, select, textarea, a") = true)
  ∧ ((∃ params,
        part_000.extractQueryParamsFromHTML NewDocumentFromReader body = Returned params)
     ↔ ∀ doc, NewDocumentFromReader body = Ok doc →
              existsb trips (goquery.Find doc "input, select, textarea, a") = false).
Proof.
  unfold part_000.extractQueryParamsFromHTML.
  destruct (NewDocumentFromReader body) as [doc|e].
  - pose proof (part_000_Each_cases (goquery.Find doc "input, select, textarea, a") ∅)
      as Hcases.
    destruct (existsb trips _) eqn:Htrips.
    + rewrite Hcases. split.
      * intros reason. split.
        -- intros [= <-]. eauto.
        -- by intros [-> _].
      * split; [by intros [? ?]|]. intros H. specialize (H doc eq_refl). congruence.
    + destruct Hcases as [m' ->]. split.
      * intros reason. split; [done|]. intros [_ (doc' & [= <-] & ?)]. congruence.
      * split; [by intros _ doc' [= <-]|]. eauto.
  - split.
    + intros reason. split; [done|]. by intros [_ (doc & ? & _)].
    + split; [done|]. eauto.
Qed.

End ExtractorMaps.

(** ** Encoding a map and parsing it back *)

Section RoundTrip.

Implicit Types v m : url.Values.

Lemma CountByte_app a b c :
  strings.CountByte (a +:+ b) c = strings.CountByte a c + strings.CountByte b c.
Proof.
  induction a as [|d a IH]; [done|]. rewrite app_cons. simpl. rewrite IH. lia.
Qed.

Lemma CountByte_escape_amp s : strings.CountByte (url.QueryEscape s) "&" = 0.
Proof.
  induction s as [|c s IH]; [done|].
  destruct c as [[] [] [] [] [] [] [] []]; exact IH.
Qed.

Lemma CountByte_escape_eq s : strings.CountByte (url.QueryEscape s) "=" = 0.
Proof.
  induction s as [|c s IH]; [done|].
  destruct c as [[] [] [] [] [] [] [] []]; exact IH.
Qed.

Lemma CountByte_escape_semi s : strings.CountByte (url.QueryEscape s) ";" = 0.
Proof.
  induction s as [|c s IH]; [done|].
  destruct c as [[] [] [] [] [] [] [] []]; exact IH.
Qed.

Lemma Cut_found a b c :
  strings.CountByte a c = 0 →
  strings.Cut (a +:+ String c b) (String c EmptyString) = (a, b, true).
Proof.
  induction a as [|d a IH]; simpl.
  - intros _. by rewrite Ascii.eqb_refl, HasPrefix_empty.
  - rewrite HasPrefix_empty, andb_true_r.
    destruct (Ascii.eqb d c) eqn:Hd; [done|]. intros Hc. by rewrite (IH Hc).
Qed.

Lemma Cut_absent s c :
  strings.CountByte s c = 0 →
  strings.Cut s (String c EmptyString) = (s, EmptyString, false).
Proof.
  induction s as [|d s IH]; simpl; [done|].
  rewrite HasPrefix_empty, andb_true_r.
  destruct (Ascii.eqb d c) eqn:Hd; [done|]. intros Hc. by rewrite (IH Hc).
Qed.

Lemma parseSegment_pair m err k x :
  url.parseSegment m err (url.QueryEscape k +:+ "=" +:+ url.QueryEscape x)
  = (url.Add k x m, err).
Proof.
  change (url.QueryEscape k +:+ "=" +:+ url.QueryEscape x)
    with (url.QueryEscape k +:+ String "=" (url.QueryEscape x)).
  unfold url.parseSegment, strings.Contains.
  rewrite Cut_absent.
  2:{ rewrite CountByte_app, CountByte_escape_semi.
      exact (CountByte_escape_semi x). }
  simpl.
  assert (String.eqb (url.QueryEscape k +:+ String "=" (url.QueryEscape x)) EmptyString
          = false) as ->.
  { apply String.eqb_neq. by destruct (url.QueryEscape k). }
  rewrite Cut_found by apply CountByte_escape_eq.
  by rewrite !QueryUnescape_QueryEscape.
Qed.

Lemma render_cons k x rest :
  render ((k, x) :: rest)
  = (url.QueryEscape k +:+ "=" +:+ url.QueryEscape x)
    +:+ match rest with
        | [] => EmptyString
        | _ => "&" +:+ render rest
        end.
Proof. simpl. by rewrite !app_assoc'. Qed.

Lemma CountByte_segment k x :
  strings.CountByte (url.QueryEscape k +:+ "=" +:+ url.QueryEscape x) "&" = 0.
Proof.
  rewrite CountByte_app, CountByte_escape_amp. exact (CountByte_escape_amp x).
Qed.

(** Parsing the text of a list of pairs adds the pairs in order, with
    any fuel that covers the text. *)
Lemma parseQuery_render ps fuel m err :
  String.length (render ps) ≤ fuel →
  url.parseQuery fuel m err (render ps) = (addPairs m ps, err).
Proof.
  revert fuel m. induction ps as [|[k x] rest IH]; intros fuel m Hfuel.
  - by destruct fuel.
  - rewrite render_cons in *.
    set (seg := url.QueryEscape k +:+ "=" +:+ url.QueryEscape x) in *.
    assert (seg ≠ EmptyString) as Hseg.
    { subst seg. by destruct (url.QueryEscape k). }
    destruct fuel as [|fuel].
    { rewrite string_length_app in Hfuel. destruct seg; [done|simpl in Hfuel; lia]. }
    cbn [url.parseQuery].
    assert (String.eqb (seg +:+ match rest with
                                | [] => EmptyString
                                | _ => "&" +:+ render rest
                                end) EmptyString = false) as ->.
    { apply String.eqb_neq. by destruct seg. }
    destruct rest as [|p rest].
    + rewrite app_empty_r, Cut_absent by apply CountByte_segment.
      subst seg. rewrite parseSegment_pair. by destruct fuel.
    + change ("&" +:+ render (p :: rest)) with (String "&" (render (p :: rest))).
      rewrite Cut_found by apply CountByte_segment.
      subst seg. rewrite parseSegment_pair.
      rewrite IH; [done|]. rewrite !string_length_app in Hfuel.
      change (String.length "&") with 1 in Hfuel. lia.
Qed.

Lemma extend_render buf ps :
  foldl (fun buf p => url.writePair (url.QueryEscape p.1) buf p.2) buf ps
  = match ps with
    | [] => buf
    | _ => (if String.eqb buf EmptyString then buf else buf +:+ "&") +:+ render ps
    end.
Proof.
  revert buf. induction ps as [|[k x] rest IH]; intros buf; [done|].
  cbn [foldl]. rewrite IH, render_cons. unfold url.writePair. simpl.
  set (pre := if String.eqb buf EmptyString then buf else buf +:+ "&").
  destruct rest as [|p rest]; [by rewrite app_empty_r|].
  assert (String.eqb (pre +:+ url.QueryEscape k +:+ "=" +:+ url.QueryEscape x)
                     EmptyString = false) as ->.
  { apply String.eqb_neq. destruct pre; [|done]. by destruct (url.QueryEscape k). }
  by rewrite !app_assoc'.
Qed.

Lemma Encode_fold v ks buf :
  foldl (fun buf k => foldl (url.writePair (url.QueryEscape k)) buf (url.get v k)) buf ks
  = foldl (fun buf p => url.writePair (url.QueryEscape p.1) buf p.2) buf (pairsOf v ks).
Proof.
  unfold pairsOf. revert buf. induction ks as [|k ks IH]; intros buf; [done|].
  rewrite bind_cons, foldl_app. cbn [foldl]. rewrite IH. f_equal.
  generalize (url.get v k). intros values. revert buf.
  induction values as [|x values IHv]; intros buf; [done|]. simpl. apply IHv.
Qed.

Lemma Encode_render v : url.Encode v = render (pairsOf v (url.sortStrings (url.keys v))).
Proof.
  unfold url.Encode. rewrite Encode_fold, extend_render.
  by destruct (pairsOf v _).
Qed.

Lemma insertSorted_perm k l : url.insertSorted k l ≡ₚ k :: l.
Proof.
  induction l as [|x l IH]; [done|]. simpl.
  destruct (String.leb k x); [done|]. by rewrite IH, Permutation_swap.
Qed.

Lemma sortStrings_perm l : url.sortStrings l ≡ₚ l.
Proof.
  induction l as [|k l IH]; [done|]. simpl. by rewrite insertSorted_perm, IH.
Qed.

Lemma get_addPairs m ps k :
  url.get (addPairs m ps) k
  = url.get m k ++ (ps ≫= fun p => if decide (k = p.1) then [p.2] else []).
Proof.
  unfold addPairs. revert m. induction ps as [|p ps IH]; intros m.
  - by rewrite app_nil_r.
  - cbn [foldl]. rewrite IH, get_Add, bind_cons, <-app_assoc. done.
Qed.

Lemma NoEmptyList_addPairs m ps : NoEmptyList m → NoEmptyList (addPairs m ps).
Proof.
  unfold addPairs. revert m. induction ps as [|p ps IH]; intros m Hm; [done|].
  cbn [foldl]. by apply IH, NoEmptyList_Add.
Qed.

Lemma select_pairsOf v ks k :
  NoDup ks →
  (pairsOf v ks ≫= fun p => if decide (k = p.1) then [p.2] else [])
  = if decide (k ∈ ks) then url.get v k else [].
Proof.
  unfold pairsOf. induction ks as [|k0 ks IH]; intros Hnd.
  - by rewrite decide_False by apply not_elem_of_nil.
  - apply NoDup_cons in Hnd as [Hk0 Hnd]. rewrite bind_cons, bind_app, (IH Hnd).
    assert (((fun x => (k0, x)) <$> url.get v k0)
              ≫= (fun p => if decide (k = p.1) then [p.2] else [])
            = if decide (k = k0) then url.get v k0 else []) as ->.
    { generalize (url.get v k0). intros values.
      induction values as [|x values IHv].
      { destruct (decide (k = k0)); reflexivity. }
      rewrite fmap_cons, bind_cons, IHv. simpl.
      destruct (decide (k = k0)); reflexivity. }
    destruct (decide (k = k0)) as [->|Hne].
    + rewrite decide_False by done. rewrite app_nil_r.
      by rewrite decide_True by apply list_elem_of_here.
    + simpl. destruct (decide (k ∈ ks)) as [Hin|Hout].
      * by rewrite decide_True by (by apply list_elem_of_further).
      * rewrite decide_False; [done|]. by intros [?|?]%elem_of_cons.
Qed.

Lemma elem_of_keys v k : k ∈ url.keys v ↔ is_Some (v !! k).
Proof.
  unfold url.keys. rewrite list_elem_of_fmap. split.
  - intros ([k' x] & -> & Hin%elem_of_map_to_list). eauto.
  - intros [x Hx]. exists (k, x). split; [done|]. by apply elem_of_map_to_list.
Qed.

Lemma addPairs_pairsOf v :
  NoEmptyList v → addPairs ∅ (pairsOf v (url.sortStrings (url.keys v))) = v.
Proof.
  intros Hv. apply map_eq. intros k.
  rewrite (lookup_entry _ k (NoEmptyList_addPairs _ _ NoEmptyList_empty)).
  rewrite (lookup_entry _ k Hv). f_equal.
  rewrite get_addPairs, get_empty, app_nil_l, select_pairsOf.
  2:{ rewrite sortStrings_perm. apply NoDup_fst_map_to_list. }
  case_decide as Hk; [done|].
  rewrite sortStrings_perm, elem_of_keys in Hk.
  symmetry. apply get_lookup_None. by apply eq_None_not_Some.
Qed.

Lemma ParseQuery_Encode v : NoEmptyList v → url.ParseQuery (url.Encode v) = (v, None).
Proof.
  intros Hv. unfold url.ParseQuery. rewrite Encode_render.
  rewrite parseQuery_render by done. by rewrite addPairs_pairsOf.
Qed.

End RoundTrip.

Lemma Encode_not_empty (v : url.Values) :
  NoEmptyList v → v ≠ ∅ → url.Encode v ≠ EmptyString.
Proof.
  intros Hv Hne Henc. pose proof (ParseQuery_Encode v Hv) as Hrt.
  rewrite Henc in Hrt. apply Hne. by injection Hrt.
Qed.

Lemma NoEmptyList_roundTripMap : NoEmptyList roundTripMap.
Proof.
  replace roundTripMap
    with (url.Add "q" "1" (url.Add "q" "FUZZ" (url.Add "id" "5" ∅)))
    by (by vm_compute).
  repeat apply NoEmptyList_Add. apply NoEmptyList_empty.
Qed.

(** X5: for every map without empty lists, parsing the encoded map gives
    the map back, with no error: same keys, same values in the same
    order, whatever bytes the keys and values hold. *)
Theorem X5_ParseQuery_Encode_round_trip (v : url.Values) :
  NoEmptyList v → url.ParseQuery (url.Encode v) = (v, None).
Proof. apply ParseQuery_Encode. Qed.

Lemma X5_ParseQuery_Encode_round_trip_witness :
  NoEmptyList roundTripMap
  ∧ url.ParseQuery (url.Encode roundTripMap) = (roundTripMap, None).
Proof.
  split; [exact NoEmptyList_roundTripMap|].
  exact (X5_ParseQuery_Encode_round_trip roundTripMap NoEmptyList_roundTripMap).
Defined.

(** X6: the query the program puts on the URL decodes to exactly the
    parameters it extracted, for every page and every URL, and it is not
    empty when there are parameters: the written line always carries a
    query.  The same holds in the second file when its extractor
    returns. *)
Theorem X6_written_query_decodes_to_parameters
  (NewDocumentFromReader : string → Result html.Node) body parsedURL :
  url.Query (main_go.rewrite parsedURL
               (main_go.extractQueryParamsFromHTML NewDocumentFromReader body))
  = main_go.extractQueryParamsFromHTML NewDocumentFromReader body
  ∧ (main_go.extractQueryParamsFromHTML NewDocumentFromReader body ≠ ∅ →
     url.RawQuery (main_go.rewrite parsedURL
                     (main_go.extractQueryParamsFromHTML NewDocumentFromReader body))
     ≠ EmptyString)
  ∧ ∀ params,
      part_000.extractQueryParamsFromHTML NewDocumentFromReader body = Returned params →
      url.Query (url.withRawQuery parsedURL (url.Encode params)) = params
      ∧ (params ≠ ∅ → url.Encode params ≠ EmptyString).
Proof.
  pose proof (NoEmptyList_main_extract NewDocumentFromReader body) as Hm.
  split; [|split].
  - unfold url.Query, main_go.rewrite. simpl. by rewrite ParseQuery_Encode.
  - intros Hne. by apply Encode_not_empty.
  - intros params Hp. pose proof (NoEmptyList_part_extract _ _ _ Hp) as Hpm. split.
    + unfold url.Query. simpl. by rewrite ParseQuery_Encode.
    + intros Hne. by apply Encode_not_empty.
Qed.

(** ** What a call of [processURL] does to the world *)

Section Effects.

Variable NewDocumentFromReader : string → Result html.Node.
Variable Do : http.Client → http.Request → Result http.Response.

Lemma stdout_printParameters_length queryParameters w :
  length (stdout (printParameters queryParameters w))
  = length (stdout w) + size queryParameters.
Proof.
  unfold printParameters. rewrite <-length_map_to_list.
  generalize (map_to_list queryParameters). intros l. revert w.
  induction l as [|kv l IH]; intros w; simpl; [lia|].
  rewrite IH. simpl. rewrite length_app. simpl. lia.
Qed.

Lemma errorLog_printParameters queryParameters w :
  errorLog (printParameters queryParameters w) = errorLog w.
Proof.
  unfold printParameters. generalize (map_to_list queryParameters). intros l.
  revert w. induction l as [|kv l IH]; intros w; simpl; [done|]. by rewrite IH.
Qed.

Lemma sent_printParameters queryParameters w :
  sent (printParameters queryParameters w) = sent w.
Proof.
  unfold printParameters. generalize (map_to_list queryParameters). intros l.
  revert w. induction l as [|kv l IH]; intros w; simpl; [done|]. by rewrite IH.
Qed.

(** X7: what one call of [processURL] changes, on every input.  It hands
    the client one request when the request could be prepared and none
    otherwise; it appends to the output file the line of the URL, if
    any, and changes nothing else of the file; with [-q] it leaves the
    error log alone; without [-v] it prints nothing; and it never writes
    a line when it returns an error. *)
Theorem X7_main_go_processURL_effects cfg urlStr w :
  let result := main_go.processURL NewDocumentFromReader Do cfg urlStr w in
  sent result.1 = sent w ++ requested cfg urlStr
  ∧ failure (file result.1) = failure (file w)
  ∧ written (file result.1)
    = written (file w)
      ++ emitted NewDocumentFromReader Do cfg (failure (file w)) urlStr
  ∧ (quiet cfg = true → errorLog result.1 = errorLog w)
  ∧ (verbose cfg = false → stdout result.1 = stdout w)
  ∧ (result.2 ≠ None → written (file result.1) = written (file w)).
Proof.
  unfold main_go.processURL, requested, emitted, lineOf.
  destruct (main_go.prepare cfg urlStr) as [[client req]|e]; simpl.
  2:{ destruct (failure (file w)); rewrite !app_nil_r; by split_and!. }
  destruct (Do client req) as [resp|e]; simpl.
  2:{ destruct (failure (file w)); rewrite !app_nil_r; by split_and!. }
  destruct (http.Body resp) as [body|e]; simpl.
  2:{ destruct (quiet cfg), (failure (file w)) eqn:Hfile; rewrite !app_nil_r;
        by split_and!. }
  destruct (Nat.ltb 0 (size _)); simpl.
  2:{ destruct (failure (file w)); rewrite !app_nil_r; by split_and!. }
  destruct (url.Parse urlStr) as [parsedURL|e]; simpl.
  2:{ destruct (failure (file w)); rewrite !app_nil_r; by split_and!. }
  unfold WriteString. simpl.
  destruct (failure (file w)) as [e|] eqn:Hfile; simpl.
  - destruct (quiet cfg); simpl; rewrite !app_nil_r, ?Hfile; by split_and!.
  - destruct (verbose cfg); simpl;
      rewrite ?file_printParameters, ?sent_printParameters, ?errorLog_printParameters;
      by split_and!.
Qed.

(** X8: [processURL] returns no error exactly when the request was
    prepared and answered, the body was read, and either the page has no
    parameter or the input URL parses and the file can be written. *)
Theorem X8_main_go_processURL_succeeds_exactly cfg urlStr w :
  (main_go.processURL NewDocumentFromReader Do cfg urlStr w).2 = None
  ↔ ∃ client req resp body,
      main_go.prepare cfg urlStr = Ok (client, req)
      ∧ Do client req = Ok resp
      ∧ http.Body resp = Ok body
      ∧ (main_go.extractQueryParamsFromHTML NewDocumentFromReader body = ∅
         ∨ (isOk (url.Parse urlStr) = true ∧ failure (file w) = None)).
Proof.
  unfold main_go.processURL. split.
  - destruct (main_go.prepare cfg urlStr) as [[client req]|e]; [|done].
    destruct (Do client req) as [resp|e] eqn:HDo; [|done].
    destruct (http.Body resp) as [body|e] eqn:Hbody; [|done].
    destruct (Nat.ltb 0 (size _)) eqn:Hsize; simpl.
    + destruct (url.Parse urlStr) as [parsedURL|e]; [|done].
      unfold WriteString. simpl.
      destruct (failure (file w)) eqn:Hfile; [done|]. intros _.
      exists client, req, resp, body. split_and!; try done. by right.
    + intros _. exists client, req, resp, body. split_and!; try done.
      left. by apply size_positive.
  - intros (client & req & resp & body & -> & -> & -> & Hcase).
    destruct Hcase as [->|[Hok Hfile]]; [done|].
    destruct (Nat.ltb 0 (size _)); [|done]. simpl.
    destruct (url.Parse urlStr); [|done].
    unfold WriteString. simpl. rewrite Hfile. simpl.
    by destruct (verbose cfg).
Qed.

(** X9: the second file never touches the error log: the errors of a
    request, of reading the body and of writing the file go to standard
    output, and with [-q] and without [-v] nothing is printed at all.
    It hands the client one request when the request could be prepared,
    and the file only grows, by at most one line. *)
Theorem X9_part_000_effects cfg u w w' :
  part_000.extractParamsFromURL NewDocumentFromReader Do cfg u w = Returned w' →
  errorLog w' = errorLog w
  ∧ sent w' = sent w ++ requested cfg u
  ∧ failure (file w') = failure (file w)
  ∧ (∃ line, written (file w') = written (file w) ++ line ∧ length line ≤ 1)
  ∧ (quiet cfg = true → verbose cfg = false → stdout w' = stdout w).
Proof.
  assert (∀ l : list string, ∃ line, l = l ++ line ∧ length line ≤ 1) as Hnone.
  { intros l. exists []. split; [by rewrite app_nil_r|simpl; lia]. }
  assert (∀ (l : list string) x, ∃ line, l ++ [x] = l ++ line ∧ length line ≤ 1)
    as Hone.
  { intros l x. exists [x]. split; [done|simpl; lia]. }
  unfold part_000.extractParamsFromURL, part_000.createRequestWithCustomHeaders, requested.
  destruct (part_000.prepare cfg u) as [[client req]|e] eqn:Hprep.
  - apply prepare_agree in Hprep. rewrite Hprep.
    destruct (Do client req) as [resp|e]; simpl.
    + destruct (http.Body resp) as [body|e]; simpl.
      * destruct (part_000.extractQueryParamsFromHTML _ _) as [params|]; [|done].
        destruct (Nat.ltb 0 (size params)); simpl.
        -- destruct (url.Parse u) as [parsedURL|e]; [|done].
           unfold WriteString. simpl.
           destruct (failure (file w)) as [e|] eqn:Hfile; simpl; intros [= <-];
             destruct (quiet cfg), (verbose cfg); simpl;
             rewrite ?file_printParameters, ?sent_printParameters,
               ?errorLog_printParameters; simpl; rewrite ?Hfile;
             split_and!; done.
        -- intros [= <-]. by split_and!.
      * intros [= <-]. destruct (quiet cfg); by split_and!.
    + intros [= <-]. destruct (quiet cfg); by split_and!.
  - assert (match main_go.prepare cfg u with Ok (_, req) => [req] | Err _ => [] end = [])
      as ->.
    { destruct (main_go.prepare cfg u) as [ready|e'] eqn:Hm; [|done].
      apply prepare_agree in Hm. congruence. }
    simpl. intros [= <-]. rewrite app_nil_r. destruct (quiet cfg); by split_and!.
Qed.

(** X10: when the page has parameters and the input URL does not parse
    on its own (the request went to [baseURL + urlStr]), the first file
    returns the error of the URL and writes nothing; the second file
    drops that error and panics on the nil URL. *)
Theorem X10_unparsable_input_URL cfg urlStr w client req resp body e :
  main_go.prepare cfg urlStr = Ok (client, req) →
  Do client req = Ok resp →
  http.Body resp = Ok body →
  url.Parse urlStr = Err e →
  (main_go.extractQueryParamsFromHTML NewDocumentFromReader body ≠ ∅ →
   main_go.processURL NewDocumentFromReader Do cfg urlStr w
   = (send req w,
      Some (fmt_Errorf "error parsing URL %s: %v" [opString urlStr; opError e])))
  ∧ (∀ params,
       part_000.extractQueryParamsFromHTML NewDocumentFromReader body = Returned params →
       params ≠ ∅ →
       part_000.extractParamsFromURL NewDocumentFromReader Do cfg urlStr w
       = Panicked part_000.nilDereference).
Proof.
  intros Hprep HDo Hbody Hparse. split.
  - intros Hne. unfold main_go.processURL. rewrite Hprep, HDo, Hbody.
    destruct (Nat.ltb 0 (size _)) eqn:Hsize.
    + simpl. by rewrite Hparse.
    + by apply size_positive in Hsize.
  - intros params Hp Hne.
    unfold part_000.extractParamsFromURL, part_000.createRequestWithCustomHeaders.
    apply prepare_agree in Hprep. rewrite Hprep, HDo, Hbody, Hp.
    destruct (Nat.ltb 0 (size params)) eqn:Hsize.
    + simpl. by rewrite Hparse.
    + by apply size_positive in Hsize.
Qed.

End Effects.

(** ** Preparing the request *)

Section Preparing.

Lemma addCustomHeaders_all headers h :
  addCustomHeaders headers h
  = match firstWithoutColon headers with
    | None => inl (foldl addHeader h headers)
    | Some bad => inr bad
    end.
Proof.
  revert h. induction headers as [|header rest IH]; intros h; [done|].
  simpl firstWithoutColon. cbn [foldl].
  destruct (strings.Contains header ":") eqn:Hc.
  - unfold strings.Contains in Hc. unfold addHeader at 2.
    destruct (strings.Cut header ":") as [[key value] found] eqn:Hcut.
    simpl in Hc. subst found.
    rewrite (addCustomHeaders_colon _ _ _ _ _ Hcut). apply IH.
  - by apply addCustomHeaders_no_colon.
Qed.

(** X11: the loop over the custom headers either adds every header, in
    order, as the trimmed text before and after its first colon, or
    stops at the first header without a colon and reports that one; the
    headers added before it are then lost with the request. *)
Theorem X11_addCustomHeaders_all_or_first headers h :
  addCustomHeaders headers h
  = match firstWithoutColon headers with
    | None => inl (foldl addHeader h headers)
    | Some bad => inr bad
    end.
Proof. apply addCustomHeaders_all. Qed.

(** X12: a request is prepared exactly when the proxy is usable, the
    request can be built and every custom header has a colon, in both
    files alike; the client then has the configured timeout, stops at
    the first redirect exactly when redirects are not to be followed,
    the method is the configured one ([GET] for an empty one) and the
    headers are the custom headers. *)
Theorem X12_prepare_succeeds_exactly cfg urlStr :
  (isOk (main_go.prepare cfg urlStr) = true
   ↔ proxyUsable cfg ∧ requestBuilds cfg urlStr
     ∧ firstWithoutColon (customHeaders cfg) = None)
  ∧ isOk (part_000.prepare cfg urlStr) = isOk (main_go.prepare cfg urlStr)
  ∧ ∀ client req,
      main_go.prepare cfg urlStr = Ok (client, req) →
      http.Timeout client = timeout cfg
      ∧ http.UseLastResponse client = negb (followRedirects cfg)
      ∧ (url.isEmpty (proxy cfg) = true → http.Proxy client = None)
      ∧ (url.isEmpty (proxy cfg) = false →
         Ok <$> http.Proxy client = Some (url.Parse (proxy cfg)))
      ∧ http.Method req
        = (if url.isEmpty (method cfg) then "GET" else method cfg)
      ∧ http.Header_ req = foldl addHeader ∅ (customHeaders cfg).
Proof.
  split; [|split].
  - unfold main_go.prepare, proxyUsable, requestBuilds.
    destruct (url.isEmpty (proxy cfg)) eqn:Hp;
      [|destruct (url.Parse (proxy cfg)) eqn:Hu]; simpl;
      try destruct (http.NewRequest _ _) as [req|e]; simpl;
      rewrite ?addCustomHeaders_all;
      try destruct (firstWithoutColon (customHeaders cfg)); simpl;
      split; try done; try (intros (? & ? & ?); done); try (by intros ([?|?] & _));
      intros _; split_and!; auto.
  - destruct (main_go.prepare cfg urlStr) as [ready|e] eqn:Hm.
    + apply prepare_agree in Hm. by rewrite Hm.
    + destruct (part_000.prepare cfg urlStr) as [ready|e'] eqn:Hpart; [|done].
      apply prepare_agree in Hpart. congruence.
  - intros client req. unfold main_go.prepare, http.NewRequest.
    destruct (url.isEmpty (proxy cfg)) eqn:Hp;
      [|destruct (url.Parse (proxy cfg)) eqn:Hu]; simpl; [| |done].
    + destruct (negb (http.validMethod _)); [done|].
      destruct (url.Parse (if url.isEmpty (baseURL cfg) then _ else _)); [|done]. simpl.
      rewrite addCustomHeaders_all.
      destruct (firstWithoutColon (customHeaders cfg)); [done|].
      intros [= <- <-]. by split_and!.
    + destruct (negb (http.validMethod _)); [done|].
      destruct (url.Parse (if url.isEmpty (baseURL cfg) then _ else _)); [|done]. simpl.
      rewrite addCustomHeaders_all.
      destruct (firstWithoutColon (customHeaders cfg)); [done|].
      intros [= <- <-]. by split_and!.
Qed.

End Preparing.

(** ** The callback of the second file *)

(** X13: the trimming step of the second file is the choice between the
    trimmed value and FUZZ on the trimmed value alone (its second test
    never decides), its result is never empty and is already trimmed,
    and applying it twice, as the callback and the closing loop do for a
    named value, is the same as applying it once. *)
Theorem X13_fuzzIfBlank_once_is_enough value :
  part_000.fuzzIfBlank value
  = (if url.isEmpty (strings.TrimSpace value) then "FUZZ" else strings.TrimSpace value)
  ∧ part_000.fuzzIfBlank value ≠ EmptyString
  ∧ strings.TrimSpace (part_000.fuzzIfBlank value) = part_000.fuzzIfBlank value
  ∧ part_000.fuzzIfBlank (part_000.fuzzIfBlank value) = part_000.fuzzIfBlank value.
Proof.
  split_and!.
  - unfold part_000.fuzzIfBlank. rewrite TrimSpace_idemp.
    by destruct (url.isEmpty (strings.TrimSpace value)).
  - intros H. apply (fuzzIfBlank_not_blank value). unfold Blank. by rewrite H.
  - apply fuzzIfBlank_Trimmed.
  - apply fuzzIfBlank_idemp.
Qed.

(** ** More on the worker pool *)

Section PoolSafety.

Variable work : string → World → Outcome World.

Lemma Safe_fire n a p p' : Safe n p → fire work a p = Some p' → Safe n p'.
Proof.
  intros (Hcap & Hlen & Hbuf & Hclosed). unfold fire, Safe.
  destruct (crashed p); [done|].
  destruct a as [| |i|i|i].
  - destruct (input p) as [|u rest] eqn:Hin; [done|].
    destruct (Nat.ltb (length (urls p)) (capacity p)) eqn:Hroom; [|done].
    intros [= <-]. simpl. apply Nat.ltb_lt in Hroom.
    split_and!; try done.
    + rewrite length_app. simpl. lia.
    + intros Hc. by specialize (Hclosed Hc).
  - destruct (input p) as [|u rest] eqn:Hin; [|done].
    destruct (closed p); [done|]. intros [= <-]. by split_and!.
  - destruct (workers p !! i) as [[| |]|]; try done.
    destruct (urls p) as [|u rest] eqn:Hurls; [done|].
    intros [= <-]. simpl in *. split_and!; try done.
    + by rewrite length_insert.
    + lia.
  - destruct (workers p !! i) as [[|u|]|]; try done.
    destruct (work u (world p)); intros [= <-]; simpl; split_and!; try done.
    by rewrite length_insert.
  - destruct (workers p !! i) as [[| |]|]; try done.
    destruct (urls p) as [|u rest] eqn:Hurls; [|done].
    destruct (closed p) eqn:Hopen; [|done].
    intros [= <-]. simpl. split_and!; try done. by rewrite length_insert.
Qed.

Lemma Safe_run n schedule p q : Safe n p → run work schedule p = Some q → Safe n q.
Proof.
  revert p. induction schedule as [|a rest IH]; intros p Hp; simpl.
  - by intros [= <-].
  - destruct (fire work a p) as [p'|] eqn:Hfire; [|done].
    apply IH. by eapply Safe_fire.
Qed.

(** X14: in every state a run can reach, whatever the body of the loop
    does (so in both files), the channel holds at most as many URLs as
    its capacity, the number of goroutines is the one [main] started,
    and a closed channel means that every line was sent: [main] never
    sends on a closed channel. *)
Theorem X14_pool_channel_safety n lines w p :
  Reaches work (start n lines w) p →
  Safe n p
  ∧ ∀ p', fire work Send p = Some p' → closed p = false ∧ closed p' = false.
Proof.
  intros [schedule Hrun].
  assert (Safe n p) as Hsafe.
  { eapply Safe_run; [|done]. unfold Safe, start. simpl.
    split_and!; try done; [apply length_replicate|lia]. }
  split; [done|]. intros p'. destruct Hsafe as (_ & _ & _ & Hclosed).
  unfold fire. destruct (crashed p); [done|].
  destruct (input p) as [|u rest] eqn:Hin; [done|].
  destruct (Nat.ltb _ _); [|done]. intros [= <-]. simpl.
  destruct (closed p); [|done]. by specialize (Hclosed eq_refl).
Qed.

(** X15: with no goroutine ([-c 0]) and at least one line, no action is
    possible from the first state: the unbuffered channel has no
    receiver, [main] blocks on its first send, nothing is written and the
    run never ends. *)
Theorem X15_no_worker_no_progress lines w p :
  lines ≠ [] →
  Reaches work (start 0 lines w) p →
  p = start 0 lines w ∧ ¬ Ended p ∧ output p = written (file w).
Proof.
  intros Hlines [schedule Hrun].
  assert (p = start 0 lines w) as ->.
  { destruct schedule as [|a rest]; [by injection Hrun|].
    simpl in Hrun. destruct lines as [|u lines]; [done|].
    by destruct a as [| |[|i]|[|i]|[|i]]. }
  split; [done|]. split; [|done].
  intros [[? Hc]|(Hin & _)]; [done|]. by simpl in Hin.
Qed.

End PoolSafety.

Section SingleWorker.

Variable work : string → World → Outcome World.
Variable out : string → list string.
Variable status : option error.

Hypothesis work_appends :
  ∀ u w, failure (file w) = status →
    ∃ w', work u w = Returned w'
          ∧ failure (file w') = status
          ∧ written (file w') = written (file w) ++ out u.

Lemma Ordered_fire total a p p' :
  Ordered out status total p → fire work a p = Some p' → Ordered out status total p'.
Proof.
  intros (Hcrash & Hfile & Hclosed & s & Hws & Hfin & Heq).
  unfold fire. rewrite Hcrash, Hws. unfold Ordered, output in *.
  destruct a as [| |i|i|i].
  - destruct (input p) as [|u rest] eqn:Hin; [done|].
    destruct (Nat.ltb (length (urls p)) (capacity p)); [|done].
    intros [= <-]. simpl.
    assert (closed p = false) as Hopen.
    { destruct (closed p); [|done]. by specialize (Hclosed eq_refl). }
    split_and!; try done; [by rewrite Hopen|].
    exists s. split_and!; try done.
    + intros Hs. destruct (Hfin Hs) as [? _]. congruence.
    + by rewrite <-Heq, <-!app_assoc.
  - destruct (input p) as [|u rest] eqn:Hin; [|done].
    destruct (closed p) eqn:Hopen; [done|]. intros [= <-]. simpl.
    split_and!; try done. exists s. split_and!; try done.
    intros Hs. by destruct (Hfin Hs).
  - destruct i as [|i]; [|done]. simpl.
    destruct s; try done.
    destruct (urls p) as [|u rest] eqn:Hurls; [done|].
    intros [= <-]. simpl. split_and!; try done.
    exists (Holding u). by split_and!.
  - destruct i as [|i]; [|done]. simpl.
    destruct s as [|u|]; try done.
    destruct (work_appends u (world p) Hfile) as (w' & -> & Hfile' & Hout).
    intros [= <-]. simpl. split_and!; try done.
    exists Idle. split_and!; try done.
    rewrite <-Heq, Hout. cbn [holds app]. by rewrite bind_cons, <-app_assoc.
  - destruct i as [|i]; [|done]. simpl.
    destruct s; try done.
    destruct (urls p) as [|u rest] eqn:Hurls; [|done].
    destruct (closed p) eqn:Hopen; [|done].
    intros [= <-]. simpl. split_and!; try done.
    exists Finished. by split_and!.
Qed.

Lemma Ordered_run total schedule p q :
  Ordered out status total p → run work schedule p = Some q → Ordered out status total q.
Proof.
  revert p. induction schedule as [|a rest IH]; intros p Hp; simpl.
  - by intros [= <-].
  - destruct (fire work a p) as [p'|] eqn:Hfire; [|done].
    apply IH. by eapply Ordered_fire.
Qed.

Lemma Ordered_start lines w :
  failure (file w) = status →
  Ordered out status (written (file w) ++ (lines ≫= out)) (start 1 lines w).
Proof.
  intros Hw. unfold Ordered, output, start. simpl.
  split_and!; try done. exists Idle. by split_and!.
Qed.

Lemma Ordered_Ended total p : Ordered out status total p → Ended p → output p = total.
Proof.
  intros (Hcrash & Hfile & Hclosed & s & Hws & Hfin & Heq) [Hdead|(Hin & _ & Hall)].
  - rewrite Hcrash in Hdead. by destruct Hdead.
  - rewrite Hws in Hall. apply Forall_cons in Hall as [-> _].
    destruct (Hfin eq_refl) as [_ Hurls].
    rewrite Hurls, Hin in Heq. simpl in Heq. by rewrite app_nil_r in Heq.
Qed.

(** With one goroutine the lines come out in the order of the input. *)
Lemma single_worker_output lines w p :
  failure (file w) = status →
  Reaches work (start 1 lines w) p → Ended p →
  output p = written (file w) ++ (lines ≫= out).
Proof.
  intros Hw [schedule Hrun] Hend.
  eapply Ordered_Ended; [|done].
  eapply Ordered_run; [|done]. by apply Ordered_start.
Qed.

End SingleWorker.

Section MainPoolMore.

Variable NewDocumentFromReader : string → Result html.Node.
Variable Do : http.Client → http.Request → Result http.Response.

(** X16: with [-c 1] the output file of main.go holds the lines of the
    URLs in the order of the input, after what the file held before. *)
Theorem X16_main_go_one_worker_keeps_order flags lines w p :
  concurrencyFlag flags = 1 →
  Reaches (main_go.worker NewDocumentFromReader Do (settings flags))
          (main_go.main flags lines w) p →
  Ended p →
  output p
  = written (file w)
    ++ (lines ≫= emitted NewDocumentFromReader Do (settings flags) (failure (file w))).
Proof.
  intros Hone Hrun Hend. unfold main_go.main in Hrun. rewrite Hone in Hrun.
  eapply (single_worker_output _ _ (failure (file w))); [|done|done|done].
  intros u w' Hw'. by apply main_go_worker_appends.
Qed.


(** X18: for every number of goroutines from one on, a run of main.go
    does end: the sequential schedule sends, processes and finishes
    every line, closes the channel and lets every goroutine leave. *)
Theorem X18_main_go_run_ends flags lines w :
  0 < concurrencyFlag flags →
  ∃ p, run (main_go.worker NewDocumentFromReader Do (settings flags))
           (oneByOne (concurrencyFlag flags) lines) (main_go.main flags lines w)
       = Some p
       ∧ Ended p ∧ crashed p = None.
Proof.
  intros Hn.
  destruct (oneByOne_ends
              (main_go.worker NewDocumentFromReader Do (settings flags))
              (emitted NewDocumentFromReader Do (settings flags) (failure (file w)))
              (failure (file w))
              (fun u w' Hw' => main_go_worker_appends NewDocumentFromReader Do
                                 (settings flags) (failure (file w)) u w' Hw')
              (concurrencyFlag flags) lines w Hn eq_refl)
    as (p & Hrun & Hend).
  exists p. split; [done|]. split; [done|].
  assert (Balanced (emitted NewDocumentFromReader Do (settings flags) (failure (file w)))
            (failure (file w)) (concurrencyFlag flags)
            (written (file w)
             ++ (lines ≫= emitted NewDocumentFromReader Do (settings flags)
                            (failure (file w)))) p) as (Hcrash & _); [|done].
  eapply Balanced_run; [| |exact Hrun].
  - intros u w' Hw'. by apply main_go_worker_appends.
  - by apply Balanced_start.
Qed.

End MainPoolMore.

(** ** The elements an extractor visits *)

Section Selected.

Lemma MatchAll_matches tags :
  ∀ n x, x ∈ goquery.MatchAll tags n → goquery.matches tags x = true.
Proof.
  fix IH 1. intros [t d a cs] x. cbn [goquery.MatchAll].
  intros [Hx|Hx]%elem_of_app.
  - destruct (goquery.matches tags (html.mkNode t d a cs)) eqn:Hm.
    + by apply list_elem_of_singleton in Hx as ->.
    + by apply elem_of_nil in Hx.
  - induction cs as [|c cs IHcs].
    + by apply elem_of_nil in Hx.
    + apply elem_of_app in Hx as [Hc|Hrest].
      * by apply (IH c).
      * by apply IHcs.
Qed.

Lemma Find_matches doc selector x :
  x ∈ goquery.Find doc selector → goquery.matches (goquery.compile selector) x = true.
Proof.
  unfold goquery.Find. generalize (html.Children doc). intros cs.
  induction cs as [|c cs IH]; simpl.
  - by intros ?%elem_of_nil.
  - intros [Hc|Hrest]%elem_of_app; [|by apply IH].
    destruct (html.isElement c); [|by apply elem_of_nil in Hc].
    by eapply MatchAll_matches.
Qed.

(** X19: the callback of main.go only ever sees element nodes whose tag
    is [a], [form], [input], [select] or [textarea], and the callback of
    the second file only [input], [select], [textarea] or [a]: text,
    comments and every other element contribute nothing. *)
Theorem X19_only_selected_tags_are_visited doc s :
  (s ∈ goquery.Find doc "a, form, input, select, textarea" →
   html.Type_ s = html.ElementNode
   ∧ html.Data s ∈ ["a"; "form"; "input"; "select"; "textarea"])
  ∧ (s ∈ goquery.Find doc "input, select, textarea, a" →
     html.Type_ s = html.ElementNode
     ∧ html.Data s ∈ ["input"; "select"; "textarea"; "a"]).
Proof.
  assert (∀ tags, goquery.matches tags s = true →
                  html.Type_ s = html.ElementNode ∧ html.Data s ∈ tags) as Hm.
  { intros tags. unfold goquery.matches, html.isElement.
    intros [Hel Htag]%andb_true_iff. split; [by destruct (html.Type_ s)|].
    apply existsb_exists in Htag as (tag & Hin & ->%String.eqb_eq).
    by apply list_elem_of_In. }
  split; intros Hs%Find_matches; by apply Hm in Hs.
Qed.

End Selected.

(** ** Where the two files agree *)

Section Agreement.

Variable NewDocumentFromReader : string → Result html.Node.

Lemma MatchAll_filter tags tags' :
  (∀ x, goquery.matches tags' x = true → goquery.matches tags x = true) →
  ∀ n, goquery.MatchAll tags' n
       = List.filter (goquery.matches tags') (goquery.MatchAll tags n).
Proof.
  intros Hsub. fix IH 1. intros [t d a cs]. cbn [goquery.MatchAll].
  rewrite List.filter_app. f_equal.
  - destruct (goquery.matches tags' (html.mkNode t d a cs)) eqn:Hm'.
    + rewrite (Hsub _ Hm'). simpl. by rewrite Hm'.
    + destruct (goquery.matches tags (html.mkNode t d a cs)); [|done].
      simpl. by rewrite Hm'.
  - induction cs as [|c cs IHcs]; [done|].
    by rewrite List.filter_app, <-IH, <-IHcs.
Qed.

Lemma compile_main :
  goquery.compile "a, form, input, select, textarea"
  = ["a"; "form"; "input"; "select"; "textarea"].
Proof. reflexivity. Qed.

Lemma compile_part :
  goquery.compile "input, select, textarea, a"
  = ["input"; "select"; "textarea"; "a"].
Proof. reflexivity. Qed.

Lemma matches_part_main x :
  html.Data x ≠ "form" →
  goquery.matches (goquery.compile "a, form, input, select, textarea") x
  = goquery.matches (goquery.compile "input, select, textarea, a") x.
Proof.
  intros Hform. rewrite compile_main, compile_part. unfold goquery.matches.
  f_equal. cbn [existsb].
  assert ((html.Data x =? "form")%string = false) as -> by by apply String.eqb_neq.
  repeat (destruct (_ =? _)%string; try done).
Qed.

Lemma matches_part_sub x :
  goquery.matches (goquery.compile "input, select, textarea, a") x = true →
  goquery.matches (goquery.compile "a, form, input, select, textarea") x = true.
Proof.
  rewrite compile_main, compile_part. unfold goquery.matches.
  intros [-> Htag]%andb_true_iff. cbn [existsb andb] in *.
  repeat (destruct (_ =? _)%string; try done).
Qed.

Lemma Find_filter doc :
  goquery.Find doc "input, select, textarea, a"
  = List.filter (goquery.matches (goquery.compile "input, select, textarea, a"))
                (goquery.Find doc "a, form, input, select, textarea").
Proof.
  unfold goquery.Find. generalize (html.Children doc). intros cs.
  induction cs as [|c cs IH]; [done|].
  cbn [flat_map]. rewrite List.filter_app, <-IH. f_equal.
  destruct (html.isElement c); [|done].
  apply MatchAll_filter. apply matches_part_sub.
Qed.

Lemma filter_all {A} (f : A → bool) (l : list A) :
  (∀ x, x ∈ l → f x = true) → List.filter f l = l.
Proof.
  induction l as [|x l IH]; intros Hall; [done|]. simpl.
  rewrite (Hall x) by apply list_elem_of_here.
  f_equal. apply IH. intros y Hy. apply Hall. by apply list_elem_of_further.
Qed.

Lemma entry_fmap (f : string → string) (values : list string) :
  entry (f <$> values) = fmap (M := option) (fmap (M := list) f) (entry values).
Proof. by destruct values. Qed.

Lemma contributions_agree key s :
  goquery.Attr s "action" = None →
  goquery.Attr s "src" = None →
  goquery.Attr s "name" ≠ Some EmptyString →
  part_000.fuzzIfBlank <$> contributes_part key s
  = part_000.fuzzIfBlank <$> contributes_main key s.
Proof.
  intros Hact Hsrc Hname. unfold contributes_part, contributes_main, goquery.AttrOr.
  rewrite Hact, Hsrc. simpl. rewrite !app_nil_r, !fmap_app. f_equal.
  - destruct (goquery.Attr s "name") as [name|]; [|done].
    assert (url.isEmpty name = false) as -> by (apply isEmpty_false; congruence).
    simpl. destruct (decide (key = name)) as [->|Hne].
    + rewrite bool_decide_eq_true_2 by done. simpl. f_equal.
      rewrite fuzzIfBlank_idemp. by destruct (goquery.Attr s "value").
    + by rewrite bool_decide_eq_false_2.
  - destruct (goquery.Attr s "href") as [href|]; [|done].
    destruct (url.isEmpty href) eqn:Hh; [|done].
    apply isEmpty_true in Hh as ->. simpl.
    change (queryValues EmptyString key) with (url.get ∅ key).
    by rewrite get_empty.
Qed.

(** X20: on a page whose selected elements are no [form], carry no
    [action], no [src] and no empty name, the two files return the same
    parameters up to the trimming of the second: whenever the second
    file returns, its map is the map of main.go with every value through
    the trimming step. *)
Theorem X20_files_agree_up_to_trimming body doc params :
  NewDocumentFromReader body = Ok doc →
  (∀ s, s ∈ goquery.Find doc "a, form, input, select, textarea" →
        html.Data s ≠ "form"
        ∧ goquery.Attr s "action" = None
        ∧ goquery.Attr s "src" = None
        ∧ goquery.Attr s "name" ≠ Some EmptyString) →
  part_000.extractQueryParamsFromHTML NewDocumentFromReader body = Returned params →
  params
  = fmap (M := gmap string) (fmap (M := list) part_000.fuzzIfBlank)
         (main_go.extractQueryParamsFromHTML NewDocumentFromReader body).
Proof.
  intros Hdoc Hpage Hp. apply map_eq. intros key.
  rewrite lookup_fmap.
  rewrite (lookup_entry _ key (NoEmptyList_part_extract _ _ _ Hp)).
  rewrite (lookup_entry _ key (NoEmptyList_main_extract NewDocumentFromReader body)).
  rewrite <-entry_fmap. f_equal.
  rewrite (part_000_extract_get _ _ _ key Hp), main_go_extract_get, Hdoc.
  rewrite Find_filter, filter_all.
  2:{ intros s Hs. destruct (Hpage s Hs) as (Hform & _).
      rewrite <-(matches_part_main s Hform). by eapply Find_matches. }
  generalize dependent (goquery.Find doc "a, form, input, select, textarea").
  intros nodes Hnodes. induction nodes as [|s nodes IH]; [done|].
  rewrite !bind_cons, !fmap_app. f_equal.
  - destruct (Hnodes s (list_elem_of_here _ _)) as (_ & Hact & Hsrc & Hname).
    by apply contributions_agree.
  - apply IH. intros s' Hs'. apply Hnodes. by apply list_elem_of_further.
Qed.

End Agreement.

(** ** The further properties on the example pages *)

Lemma X2_part_000_extract_entries_witness :
  ∃ params,
    part_000.extractQueryParamsFromHTML (pageParser linkPage linkDoc) linkPage
    = Returned params
    ∧ params !! "id" = Some ["7"; "5"]
    ∧ params !! "ref" = None.
Proof.
  assert (part_000.extractQueryParamsFromHTML (pageParser linkPage linkDoc) linkPage
          = Returned {[ "id" := ["7"; "5"] ]}) as Hret by (vm_compute; reflexivity).
  eexists. split; [exact Hret|]. split.
  - rewrite (X2_part_000_extract_entries _ _ _ "id" Hret). reflexivity.
  - rewrite (X2_part_000_extract_entries _ _ _ "ref" Hret). reflexivity.
Defined.

Lemma X3_part_000_values_trimmed_witness :
  ∃ params,
    part_000.extractQueryParamsFromHTML (pageParser blankPage blankDoc) blankPage
    = Returned params
    ∧ params !! "q" = Some ["FUZZ"]
    ∧ strings.TrimSpace "FUZZ" = "FUZZ" ∧ "FUZZ" ≠ EmptyString.
Proof.
  assert (part_000.extractQueryParamsFromHTML (pageParser blankPage blankDoc) blankPage
          = Returned {[ "q" := ["FUZZ"] ]}) as Hret by (vm_compute; reflexivity).
  assert (({[ "q" := ["FUZZ"] ]} : url.Values) !! "q" = Some ["FUZZ"]) as Hq
    by reflexivity.
  eexists. split; [exact Hret|]. split; [exact Hq|].
  exact (X3_part_000_values_trimmed _ _ _ _ _ "FUZZ" Hret Hq (list_elem_of_here _ _)).
Defined.

Lemma X9_part_000_effects_witness :
  ∃ w',
    part_000.extractParamsFromURL (pageParser formPage formDoc) (serve formPage)
                                  defaults "http://h/page" emptyWorld
    = Returned w'
    ∧ errorLog w' = errorLog emptyWorld
    ∧ sent w' = sent emptyWorld ++ requested defaults "http://h/page"
    ∧ failure (file w') = failure (file emptyWorld)
    ∧ (∃ line, written (file w') = written (file emptyWorld) ++ line ∧ length line ≤ 1)
    ∧ (quiet defaults = true → verbose defaults = false →
       stdout w' = stdout emptyWorld).
Proof.
  eexists. split; [vm_compute; reflexivity|].
  apply (X9_part_000_effects (pageParser formPage formDoc) (serve formPage)
           defaults "http://h/page" emptyWorld).
  vm_compute. reflexivity.
Defined.

Lemma X10_unparsable_input_URL_witness :
  ∃ req,
    main_go.processURL (pageParser formPage formDoc) (serve formPage)
                       withBase ":" emptyWorld
    = (send req emptyWorld,
       Some (fmt_Errorf "error parsing URL %s: %v"
               [opString ":";
                opError (url_Error "parse" ":" (errors_New "missing protocol scheme"))]))
    ∧ part_000.extractParamsFromURL (pageParser formPage formDoc) (serve formPage)
                                    withBase ":" emptyWorld
      = Panicked part_000.nilDereference.
Proof.
  eexists.
  edestruct (X10_unparsable_input_URL (pageParser formPage formDoc) (serve formPage)
               withBase ":" emptyWorld) as [Hmain Hpart].
  - vm_compute. reflexivity.
  - reflexivity.
  - reflexivity.
  - reflexivity.
  - split.
    + apply Hmain. intros Hempty.
      apply (f_equal (λ m : url.Values, m !! "q")) in Hempty.
      vm_compute in Hempty. discriminate Hempty.
    + apply (Hpart {[ "q" := ["FUZZ"] ]}); [vm_compute; reflexivity|].
      intros Hempty. apply (f_equal (λ m : url.Values, m !! "q")) in Hempty.
      vm_compute in Hempty. discriminate Hempty.
Defined.

Lemma X14_pool_channel_safety_witness :
  ∃ p,
    run (part_000.extractParamsFromURL twoPages twoHosts defaults) racing
        (start 10 goodThenBad emptyWorld) = Some p
    ∧ crashed p = Some part_000.nilDereference
    ∧ Safe 10 p.
Proof.
  eexists. split; [vm_compute; reflexivity|]. split; [reflexivity|].
  apply (X14_pool_channel_safety
           (part_000.extractParamsFromURL twoPages twoHosts defaults)
           10 goodThenBad emptyWorld).
  exists racing. vm_compute. reflexivity.
Defined.

Lemma X15_no_worker_no_progress_witness :
  goodThenBad ≠ []
  ∧ ¬ Ended (main_go.main (mkFlags 0 defaults) goodThenBad emptyWorld).
Proof.
  assert (goodThenBad ≠ []) as Hlines by discriminate.
  split; [exact Hlines|].
  apply (X15_no_worker_no_progress
           (main_go.worker twoPages twoHosts defaults) goodThenBad emptyWorld
           _ Hlines (ex_intro _ [] eq_refl)).
Defined.

Lemma X16_main_go_one_worker_keeps_order_witness :
  ∃ p,
    run (main_go.worker twoPages twoHosts (settings oneWorker))
        (oneByOne 1 goodThenBad) (main_go.main oneWorker goodThenBad emptyWorld)
    = Some p
    ∧ output p = ["http://h/good?q=FUZZ&x=1" +:+ main_go.newline;
                  "http://h/bad?q=FUZZ" +:+ main_go.newline].
Proof.
  eexists. split; [vm_compute; reflexivity|].
  rewrite (X16_main_go_one_worker_keeps_order twoPages twoHosts oneWorker
             goodThenBad emptyWorld).
  - vm_compute. reflexivity.
  - reflexivity.
  - exists (oneByOne 1 goodThenBad). vm_compute. reflexivity.
  - right. split; [reflexivity|]. split; [reflexivity|]. repeat constructor.
Defined.


Lemma X18_main_go_run_ends_witness :
  0 < concurrencyFlag threeWorkers
  ∧ ∃ p,
      run (main_go.worker twoPages twoHosts (settings threeWorkers))
          (oneByOne (concurrencyFlag threeWorkers) goodThenBad)
          (main_go.main threeWorkers goodThenBad emptyWorld)
      = Some p
      ∧ Ended p ∧ crashed p = None.
Proof.
  assert (0 < concurrencyFlag threeWorkers) as Hn by (simpl; lia).
  split; [exact Hn|].
  exact (X18_main_go_run_ends twoPages twoHosts threeWorkers goodThenBad emptyWorld Hn).
Defined.

Lemma X20_files_agree_up_to_trimming_witness :
  ∃ params,
    part_000.extractQueryParamsFromHTML (pageParser linkPage linkDoc) linkPage
    = Returned params
    ∧ params
      = fmap (M := gmap string) (fmap (M := list) part_000.fuzzIfBlank)
             (main_go.extractQueryParamsFromHTML (pageParser linkPage linkDoc) linkPage).
Proof.
  eexists. split; [vm_compute; reflexivity|].
  apply (X20_files_agree_up_to_trimming (pageParser linkPage linkDoc) linkPage linkDoc).
  - reflexivity.
  - intros s Hs.
    change (goquery.Find linkDoc "a, form, input, select, textarea")
      with [linkElement] in Hs.
    apply list_elem_of_singleton in Hs as ->.
    split; [discriminate|]. split; [reflexivity|]. split; [reflexivity|discriminate].
  - vm_compute. reflexivity.
Defined.
